(** * The [docker run] client driver and the Windows stdin relay

    A shallow embedding of api/client/run.go (the CID file methods, the
    classification of daemon errors, [CmdRun]) and of
    libcontainerd/process_windows.go (the DEL to BACKSPACE stdin filter),
    with the properties the specification states about them. *)

From Stdlib Require Import ZArith Lia.
From Stdlib.Strings Require Import String Ascii Byte.
From stdpp Require Import gmap strings list.

Local Open Scope string_scope.
Local Open Scope list_scope.
Local Open Scope stdpp_scope.
Local Open Scope Z_scope.

(** ** Go's [strings] package, on byte strings *)

Module strings.

(** [s[n:]] for [n <= len(s)]. *)
Fixpoint drop (n : nat) (s : string) : string :=
  match n, s with
  | O, _ => s
  | S n', String _ s' => drop n' s'
  | S _, EmptyString => EmptyString
  end.

(** [strings.HasPrefix(s, prefix)]. *)
Fixpoint HasPrefix (s prefix : string) {struct prefix} : bool :=
  match prefix, s with
  | EmptyString, _ => true
  | String a p', String b s' => Ascii.eqb a b && HasPrefix s' p'
  | String _ _, EmptyString => false
  end.

(** [strings.TrimPrefix(s, prefix)]: [s] without the leading [prefix], or
    [s] itself when it does not start with it. *)
Definition TrimPrefix (s prefix : string) : string :=
  if HasPrefix s prefix then drop (String.length prefix) s else s.

(** [strings.Contains(s, substr)]: [substr] starts at some offset of [s]. *)
Fixpoint Contains (s substr : string) : bool :=
  HasPrefix s substr ||
  match s with
  | EmptyString => false
  | String _ s' => Contains s' substr
  end.

End strings.

(** ** Error values

    A Go [error] is observed here through its [Error()] text and, for
    [httputil.ErrPersistEOF], through its identity. *)

Inductive error : Type :=
| errorString (text : string)   (* fmt.Errorf(...), and any error of a collaborator *)
| ErrPersistEOF.                (* httputil.ErrPersistEOF *)

Definition Error (e : error) : string :=
  match e with
  | errorString text => text
  | ErrPersistEOF => "persistent connection closed"
  end.

#[global] Instance error_eq_dec : EqDecision error.
Proof. solve_decision. Defined.

(** [Cli.StatusError]: the process exit status carried as an error. *)
Record StatusError : Type := mkStatusError { StatusCode : Z }.

#[global] Instance StatusError_eq_dec : EqDecision StatusError.
Proof. solve_decision. Defined.

(** ** run.go: constants and [runStartContainerErr] *)

Definition errCmdNotFound : string := "not found or does not exist".
Definition errCmdCouldNotBeInvoked : string := "could not be invoked".

Definition runStartContainerErr (err : error) : StatusError :=
  let trimmedErr := strings.TrimPrefix (Error err) "Error response from daemon: " in
  let statusError := mkStatusError 125 in
  if strings.HasPrefix trimmedErr "Container command" then
    if strings.Contains trimmedErr errCmdNotFound then
      mkStatusError 127
    else if strings.Contains trimmedErr errCmdCouldNotBeInvoked then
      mkStatusError 126
    else statusError
  else statusError.

(** ** libcontainerd/process_windows.go

    Byte slices live in a heap of backing arrays, so that a write through
    one slice is seen through every slice that shares its array. *)

Module libcontainerd.

Abbreviation heap := (gmap positive (list byte)).

(** A slice header: the backing array, the offset of element 0 and the
    length (nothing here appends, so the capacity is left out). *)
Record slice : Type := mkSlice { ptr : positive; off : nat; len : nat }.

(** The slice lies within its backing array. *)
Definition valid (h : heap) (s : slice) : Prop :=
  exists arr, h !! ptr s = Some arr /\ (off s + len s <= length arr)%nat.

(** The elements of the slice, in order. *)
Definition bytes (h : heap) (s : slice) : list byte :=
  match h !! ptr s with
  | Some arr => take (len s) (drop (off s) arr)
  | None => []
  end.

(** [s[i]]; [None] is the index-out-of-range panic. *)
Definition load (h : heap) (s : slice) (i : nat) : option byte :=
  if decide (i < len s)%nat then
    match h !! ptr s with
    | Some arr => arr !! (off s + i)%nat
    | None => None
    end
  else None.

(** [s[i] = c]; [None] is the index-out-of-range panic. *)
Definition store (h : heap) (s : slice) (i : nat) (c : byte) : option heap :=
  if decide (i < len s)%nat then
    match h !! ptr s with
    | Some arr =>
        if decide (off s + i < length arr)%nat
        then Some (<[ptr s := <[(off s + i)%nat := c]> arr]> h)
        else None
    | None => None
    end
  else None.

(** [make([]byte, n)]: a new zeroed array and the slice over all of it. *)
Definition make (h : heap) (n : nat) : heap * slice :=
  let p := fresh (dom h) in
  (<[p := replicate n x00]> h, mkSlice p 0 n).

(** [io.WriteCloser]. A call gets the heap and the slice header it is
    passed; [None] is a panic. The writer's own state is threaded. *)
Class WriteCloser (W : Type) : Type := {
  Write : W -> heap -> slice -> option (heap * W * (Z * option error));
  Close : W -> W * option error
}.

Record delToBsWriter (W : Type) : Type := mkDelToBsWriter { inner : W }.
Arguments mkDelToBsWriter {W} _.
Arguments inner {W} _.

Definition backspace : byte := x08.
Definition del : byte := x7f.

(** The body of the [for i, c := range b] loop, for the [n] indices from [i]
    on: [c] is read from [b] at each iteration and [bc[i]] is written. *)
Fixpoint remap_loop (h : heap) (b bc : slice) (i n : nat) : option heap :=
  match n with
  | O => Some h
  | S n' =>
      match load h b i with
      | Some c =>
          match store h bc i (if Byte.eqb c del then backspace else c) with
          | Some h' => remap_loop h' b bc (S i) n'
          | None => None
          end
      | None => None
      end
  end.

(** [bc := make([]byte, len(b))] and the loop: the heap and the buffer that
    [Write] hands on. *)
Definition remap (h : heap) (b : slice) : option (heap * slice) :=
  let '(h0, bc) := make h (len b) in
  match remap_loop h0 b bc 0 (len b) with
  | Some h1 => Some (h1, bc)
  | None => None
  end.

Definition delToBsWriter_Write {W} `{WriteCloser W}
    (w : delToBsWriter W) (h : heap) (b : slice)
  : option (heap * delToBsWriter W * (Z * option error)) :=
  match remap h b with
  | Some (h1, bc) =>
      match Write (inner w) h1 bc with
      | Some (h2, w', r) => Some (h2, mkDelToBsWriter w', r)
      | None => None
      end
  | None => None
  end.

(** [delToBsWriter] embeds its [io.WriteCloser]: [Close] is the inner one. *)
#[global] Instance delToBsWriter_WriteCloser {W} `{WriteCloser W}
  : WriteCloser (delToBsWriter W) := {
  Write := delToBsWriter_Write;
  Close w := let '(w', e) := Close (inner w) in (mkDelToBsWriter w', e)
}.

(** The interface value [fixStdinBackspaceBehavior] returns: [w] itself, or
    a [*delToBsWriter] around it. *)
Inductive stdinWriter (W : Type) : Type :=
| Unchanged (w : W)
| Filtered (d : delToBsWriter W).
Arguments Unchanged {W} _.
Arguments Filtered {W} _.

#[global] Instance stdinWriter_WriteCloser {W} `{WriteCloser W}
  : WriteCloser (stdinWriter W) := {
  Write x h b :=
    match x with
    | Unchanged w =>
        match Write w h b with
        | Some (h', w', r) => Some (h', Unchanged w', r)
        | None => None
        end
    | Filtered d =>
        match Write d h b with
        | Some (h', d', r) => Some (h', Filtered d', r)
        | None => None
        end
    end;
  Close x :=
    match x with
    | Unchanged w => let '(w', e) := Close w in (Unchanged w', e)
    | Filtered d => let '(d', e) := Close d in (Filtered d', e)
    end
}.

(** [osBuild] is [system.GetOSVersion().Build]. *)
Definition fixStdinBackspaceBehavior {W} (osBuild : Z) (w : W) (tty : bool)
  : stdinWriter W :=
  if negb tty || (14350 <=? osBuild) then Unchanged w
  else Filtered (mkDelToBsWriter w).

End libcontainerd.

(** ** run.go: the CID file

    [cidFile] is declared next to [newCIDFile] (create.go); its methods use
    the three fields below. The file system maps a path to the bytes stored
    under it; [*os.File] is a handle on a path with a write offset. A fault
    of the operating system is an argument of the call it strikes. *)

Abbreviation filesystem := (gmap string (list byte)).

Record File : Type := mkFile { name : string; offset : nat; closed : bool }.

Record cidFile : Type := mkCidFile { path : string; file : File; written : bool }.

Definition newline : string := String (ascii_of_nat 10) EmptyString.

(** The bytes of a file after [b] is written at offset [o] (a gap is
    filled with zero bytes). *)
Definition pwrite (content : list byte) (o : nat) (b : list byte) : list byte :=
  take o (content ++ replicate (o - length content) x00) ++ b
  ++ drop (o + length b) content.

(** [f.Close()]. *)
Definition File_Close (f : File) : File * option error :=
  if closed f then (f, Some (errorString "file already closed"))
  else (mkFile (name f) (offset f) true, None).

(** [f.Write(b)]. With the fault [(n, e)] only the first [n] bytes reach the
    file and [e] is returned. *)
Definition File_Write (fault : option (nat * error)) (fs : filesystem)
    (f : File) (b : list byte) : filesystem * File * (nat * option error) :=
  if closed f then (fs, f, (0%nat, Some (errorString "file already closed")))
  else
    let done := match fault with Some (n, _) => take n b | None => b end in
    let fs' := match fs !! name f with
               | Some content => <[name f := pwrite content (offset f) done]> fs
               | None => fs
               end in
    (fs', mkFile (name f) (offset f + length done) false,
     (length done, match fault with Some (_, e) => Some e | None => None end)).

(** [os.Remove(name)]. *)
Definition os_Remove (fault : option error) (fs : filesystem) (name : string)
  : filesystem * option error :=
  match fault with
  | Some e => (fs, Some e)
  | None =>
      match fs !! name with
      | Some _ => (delete name fs, None)
      | None => (fs, Some (errorString ("remove " +:+ name +:+ ": no such file or directory")))
      end
  end.

Definition cidFile_Close (rmFault : option error) (fs : filesystem) (cid : cidFile)
  : filesystem * cidFile * option error :=
  let '(f', _) := File_Close (file cid) in
  let cid' := mkCidFile (path cid) f' (written cid) in
  if negb (written cid') then
    match os_Remove rmFault fs (path cid') with
    | (fs', Some err) =>
        (fs', cid',
         Some (errorString ("failed to remove the CID file '" +:+ path cid' +:+ "': "
                            +:+ Error err +:+ " " +:+ newline)))
    | (fs', None) => (fs', cid', None)
    end
  else (fs, cid', None).

Definition cidFile_Write (wrFault : option (nat * error)) (fs : filesystem)
    (cid : cidFile) (id : string) : filesystem * cidFile * option error :=
  let '(fs', f', (_, err)) := File_Write wrFault fs (file cid) (list_byte_of_string id) in
  match err with
  | Some e =>
      (fs', mkCidFile (path cid) f' (written cid),
       Some (errorString ("Failed to write the container ID to the file: " +:+ Error e)))
  | None => (fs', mkCidFile (path cid) f' true, None)
  end.

(** The state [os.Create(path)] leaves: an empty file under [path] and an
    open handle at offset 0, nothing written yet. *)
Definition opened (fs : filesystem) (cid : cidFile) : Prop :=
  fs !! path cid = Some [] /\ file cid = mkFile (path cid) 0 false
  /\ written cid = false.

(** ** run.go: [CmdRun]

    What [runconfigopts.Parse] hands back: the container and host
    configuration (the fields [CmdRun] reads or writes) and the flags of the
    command. The networking configuration is only passed on to create. *)

Record Config : Type := mkConfig {
  Image : string;
  AttachStdin : bool;
  AttachStdout : bool;
  AttachStderr : bool;
  Tty : bool;
  StdinOnce : bool;
  ArgsEscaped : bool
}.

Record RestartPolicy : Type := mkRestartPolicy { Name : string; MaximumRetryCount : Z }.

(** [container.RestartPolicy]'s tests (engine-api): on the policy's name. *)
Definition IsAlways (rp : RestartPolicy) : bool := String.eqb (Name rp) "always".
Definition IsOnFailure (rp : RestartPolicy) : bool := String.eqb (Name rp) "on-failure".

Record HostConfig : Type := mkHostConfig {
  OomKillDisable : option bool;
  Memory : Z;
  DNS : list string;
  Restart : RestartPolicy;
  ContainerIDFile : string;
  ConsoleSize : Z * Z
}.

Record Flags : Type := mkFlags {
  flAutoRemove : bool;
  flDetach : bool;
  flSigProxy : bool;
  flName : string;
  flDetachKeys : string;
  (** [cmd.Lookup("-attach")]: the values of the flag, when it is defined *)
  flAttach : option (list string)
}.

Record Parsed : Type := mkParsed {
  config : Config;
  hostConfig : HostConfig;
  flags : Flags
}.

(** The standard streams of the client. *)
Inductive stream : Type := cli_in | cli_out | cli_err.

Record ContainerAttachOptions : Type := mkAttachOptions {
  Stream : bool;
  Stdin : bool;
  Stdout : bool;
  Stderr : bool;
  DetachKeys : string
}.

(** The collaborators of one run: the client's environment and what the
    daemon answers to each call. [holdHijackedConnection] is what the copy
    loop of the attach task returns when it is left to end by itself. *)
Record World : Type := mkWorld {
  GOOS : string;
  getTtySize : Z * Z;
  IsLocalhost : string -> bool;
  CheckTtyInput : bool -> bool -> option error;
  isTerminalOut : bool;
  configFile_DetachKeys : string;
  createContainer : Config -> HostConfig -> string -> string -> error + string;
  ContainerAttach : string -> ContainerAttachOptions -> option error;
  holdHijackedConnection :
    bool -> option stream -> option stream -> option stream -> option error;
  ContainerStart : string -> option error;
  monitorTtySize : string -> bool -> option error;
  ContainerWait : string -> Z * option error;
  getExitCode : string -> bool * Z * option error;
  removeContainer : string -> bool -> bool -> bool -> option error
}.

(** What the primary task does, in order: each call with its answer, each
    task it starts, each channel it receives from. *)
Inductive event : Type :=
| Fprintf_err (text : string)                     (* fmt.Fprintf(cli.err, ...) *)
| Usage                                           (* cmd.Usage() *)
| ReportError (text : string) (withHelp : bool)   (* cmd.ReportError *)
| Debugf (text : string)                          (* logrus.Debugf *)
| Create (c : Config) (hc : HostConfig) (cidfile name : string)
         (r : error + string)
| ForwardAllSignals (id : string)
| GoDisplayID (id : string)        (* go func: print the ID, close waitDisplayID *)
| Attach (id : string) (o : ContainerAttachOptions) (r : option error)
| GoHoldHijacked (tty : bool) (i o e : option stream)   (* promise.Go *)
| Start (id : string) (r : option error)
| Cancel                                          (* cancelFun() *)
| RecvErrCh (r : option error)                    (* <-errCh *)
| MonitorTtySize (id : string) (r : option error)
| RecvWaitDisplayID                               (* <-waitDisplayID *)
| Wait (id : string) (r : Z * option error)
| GetExitCode (id : string) (r : bool * Z * option error)
| RemoveContainer (id : string) (force removeVolumes removeLinks : bool)
                  (r : option error)
| RespClose                                       (* deferred resp.Close() *)
| StopCatch.                                      (* deferred signal.StopCatch *)

(** How [CmdRun] ends. *)
Inductive result : Type :=
| Nil                        (* return nil *)
| Err (e : error)            (* return of an error value as it is *)
| Status (s : StatusError)   (* return of a Cli.StatusError *)
| Exit (code : Z).           (* os.Exit *)

Definition ErrConflictAttachDetach : error :=
  errorString "Conflicting options: -a and -d".
Definition ErrConflictRestartPolicyAndAutoRemove : error :=
  errorString "Conflicting options: --restart and --rm".
Definition ErrConflictDetachAutoRemove : error :=
  errorString "Conflicting options: --rm and -d".

(** *** The monad of the function body

    A computation yields the events of the primary task in order, the calls
    it deferred (each the events it will produce, the last deferred first),
    and either goes on with a value or leaves the function with a result. *)

Inductive flow (A : Type) : Type :=
| Go_on (a : A)
| Return (r : result).
Arguments Go_on {A} _.
Arguments Return {A} _.

Record M (A : Type) : Type := mkM {
  events : list event;
  deferred : list (list event);
  outcome : flow A
}.
Arguments mkM {A} _ _ _.
Arguments events {A} _.
Arguments deferred {A} _.
Arguments outcome {A} _.

#[global] Instance M_ret : MRet M := fun A a => mkM [] [] (Go_on a).
#[global] Instance M_bind : MBind M := fun A B f m =>
  match outcome m with
  | Go_on a =>
      mkM (events m ++ events (f a)) (deferred (f a) ++ deferred m)
          (outcome (f a))
  | Return r => mkM (events m) (deferred m) (Return r)
  end.

Definition emit (e : event) : M unit := mkM [e] [] (Go_on tt).
Definition defer (es : list event) : M unit := mkM [] [es] (Go_on tt).
Definition leave {A} (r : result) : M A := mkM [] [] (Return r).
Definition when (b : bool) (m : M unit) : M unit := if b then m else mret tt.

(** Running a body: the deferred calls run last in, first out when the
    function returns; [os.Exit] runs none. *)
Definition run (m : M result) : list event * result :=
  let r := match outcome m with Go_on r => r | Return r => r end in
  match r with
  | Exit _ => (events m, r)
  | _ => (events m ++ concat (deferred m), r)
  end.

(** *** The body of [CmdRun], in the order of the source *)

(** Lines 86-114: parse failure, the two warnings, the empty image. *)
Definition preamble (w : World) (parsed : error + Parsed) : M Parsed :=
  match parsed with
  | inl err =>
      emit (ReportError (Error err) true);;
      leave (Exit 125)
  | inr p =>
      let hc := hostConfig p in
      when (match OomKillDisable hc with Some true => true | _ => false end
            && (Memory hc =? 0))
        (emit (Fprintf_err ("WARNING: Disabling the OOM killer on containers without setting a '-m/--memory' limit may be dangerous." +:+ newline)));;
      match List.find (IsLocalhost w) (DNS hc) with
      | Some dnsIP =>
          emit (Fprintf_err ("WARNING: Localhost DNS setting (--dns=" +:+ dnsIP
                             +:+ ") may fail in containers." +:+ newline))
      | None => mret tt
      end;;
      if String.eqb (Image (config p)) "" then
        emit Usage;; leave Nil
      else
        let c := config p in
        mret (mkParsed
                (mkConfig (Image c) (AttachStdin c) (AttachStdout c)
                          (AttachStderr c) (Tty c) (StdinOnce c) false)
                hc (flags p))
  end.

(** Lines 116-135: the terminal check when attached, the two conflicts of
    [-d] and the clearing of the attach flags when detached. *)
Definition detachOrCheck (w : World) (p : Parsed) : M Config :=
  let c := config p in
  if negb (flDetach (flags p)) then
    match CheckTtyInput w (AttachStdin c) (Tty c) with
    | Some err => leave (Err err)
    | None => mret c
    end
  else
    match flAttach (flags p) with
    | Some values =>
        if negb (length values =? 0)%nat then leave (Err ErrConflictAttachDetach)
        else mret tt
    | None => mret tt
    end;;
    if flAutoRemove (flags p) then leave (Err ErrConflictDetachAutoRemove)
    else
      mret (mkConfig (Image c) false false false (Tty c) false (ArgsEscaped c)).

(** Lines 137-160: the create call and the signal forwarder. *)
Definition create (w : World) (p : Parsed) (c : Config) : M (HostConfig * string) :=
  let sigProxy := if Tty c then false else flSigProxy (flags p) in
  let hc0 := hostConfig p in
  let hc :=
    if String.eqb (GOOS w) "windows" then
      mkHostConfig (OomKillDisable hc0) (Memory hc0) (DNS hc0) (Restart hc0)
                   (ContainerIDFile hc0) (getTtySize w)
    else hc0 in
  let r := createContainer w c hc (ContainerIDFile hc) (flName (flags p)) in
  emit (Create c hc (ContainerIDFile hc) (flName (flags p)) r);;
  match r with
  | inl err =>
      emit (ReportError (Error err) true);;
      leave (Status (runStartContainerErr err))
  | inr id =>
      when sigProxy (emit (ForwardAllSignals id);; defer [StopCatch]);;
      mret (hc, id)
  end.

(** Lines 161-175: the task that prints the identifier, then the conflict
    of [--rm] with a restart policy. *)
Definition displayID (p : Parsed) (c : Config) (hc : HostConfig) (id : string)
  : M unit :=
  when (negb (AttachStdout c) && negb (AttachStderr c)) (emit (GoDisplayID id));;
  if flAutoRemove (flags p) && (IsAlways (Restart hc) || IsOnFailure (Restart hc))
  then leave (Err ErrConflictRestartPolicyAndAutoRemove)
  else mret tt.

(** Lines 176-224: the attach call and the task that holds the hijacked
    connection. The value is [errCh]: [None] for the nil channel, and else
    what the channel will deliver. *)
Definition attachSession (w : World) (p : Parsed) (c : Config) (id : string)
  : M (option (option error)) :=
  let attach := AttachStdin c || AttachStdout c || AttachStderr c in
  if attach then
    let i := if AttachStdin c then Some cli_in else None in
    let o := if AttachStdout c then Some cli_out else None in
    let e := if AttachStderr c
             then (if Tty c then Some cli_out else Some cli_err) else None in
    let detachKeys :=
      if negb (String.eqb (flDetachKeys (flags p)) "")
      then flDetachKeys (flags p) else configFile_DetachKeys w in
    let options :=
      mkAttachOptions true (AttachStdin c) (AttachStdout c) (AttachStderr c)
                      detachKeys in
    let errAttach := ContainerAttach w id options in
    emit (Attach id options errAttach);;
    match errAttach with
    | Some err =>
        if negb (bool_decide (err = ErrPersistEOF)) then leave (Err err)
        else mret tt
    | None => mret tt
    end;;
    defer [RespClose];;
    emit (GoHoldHijacked (Tty c) i o e);;
    let errHijack := holdHijackedConnection w (Tty c) i o e in
    mret (Some (match errHijack with
                | None => errAttach
                | Some _ => errHijack
                end))
  else mret None.

(** Lines 226-234: the deferred removal. *)
Definition deferRemove (w : World) (p : Parsed) (id : string) : M unit :=
  when (flAutoRemove (flags p))
    (let r := removeContainer w id true false true in
     defer (RemoveContainer id true false true r ::
            match r with
            | Some err => [Fprintf_err (Error err +:+ newline)]
            | None => []
            end)).

(** Lines 236-248: the start call. *)
Definition start (w : World) (c : Config) (id : string)
    (errCh : option (option error)) : M unit :=
  let attach := AttachStdin c || AttachStdout c || AttachStderr c in
  let r := ContainerStart w id in
  emit (Start id r);;
  match r with
  | Some err =>
      match errCh with
      | Some v => when attach (emit Cancel;; emit (RecvErrCh v))
      | None => when attach (emit Cancel)   (* a nil channel: never met *)
      end;;
      emit (ReportError (Error err) false);;
      leave (Status (runStartContainerErr err))
  | None => mret tt
  end.

(** Lines 250-254: the terminal size monitor. *)
Definition monitor (w : World) (c : Config) (id : string) : M unit :=
  when ((AttachStdin c || AttachStdout c || AttachStderr c) && Tty c
        && isTerminalOut w)
    (let r := monitorTtySize w id false in
     emit (MonitorTtySize id r);;
     match r with
     | Some err =>
         emit (Fprintf_err ("Error monitoring TTY size: " +:+ Error err +:+ newline))
     | None => mret tt
     end).

(** Lines 256-261: the result of the attach task. *)
Definition awaitSession (errCh : option (option error)) : M unit :=
  match errCh with
  | Some v =>
      emit (RecvErrCh v);;
      match v with
      | Some err => emit (Debugf ("Error hijack: " +:+ Error err));; leave (Err err)
      | None => mret tt
      end
  | None => mret tt
  end.

(** Lines 270-296: the exit status of an attached run. *)
Definition exitStatus (w : World) (p : Parsed) (c : Config) (id : string) : M Z :=
  if flAutoRemove (flags p) then
    let r := ContainerWait w id in
    emit (Wait id r);;
    match r with
    | (_, Some err) => leave (Status (runStartContainerErr err))
    | (_, None) =>
        let r' := getExitCode w id in
        emit (GetExitCode id r');;
        match r' with
        | (_, _, Some err) => leave (Err err)
        | (_, status, None) => mret status
        end
    end
  else if negb (Tty c) then
    let r := ContainerWait w id in
    emit (Wait id r);;
    match r with
    | (_, Some err) => leave (Err err)
    | (status, None) => mret status
    end
  else
    let r' := getExitCode w id in
    emit (GetExitCode id r');;
    match r' with
    | (_, _, Some err) => leave (Err err)
    | (_, status, None) => mret status
    end.

Definition CmdRun_body (w : World) (parsed : error + Parsed) : M result :=
  p ← preamble w parsed;
  c ← detachOrCheck w p;
  '(hc, id) ← create w p c;
  displayID p c hc id;;
  errCh ← attachSession w p c id;
  deferRemove w p id;;
  start w c id errCh;;
  monitor w c id;;
  awaitSession errCh;;
  (* lines 263-268: detached mode *)
  if negb (AttachStdout c) && negb (AttachStderr c) then
    emit RecvWaitDisplayID;;
    leave Nil
  else
    status ← exitStatus w p c id;
    (* lines 297-300 *)
    if negb (status =? 0) then leave (Status (mkStatusError status))
    else leave Nil.

(** [CmdRun] on what the parser returned: the trace of the primary task and
    how the function ends. *)
Definition CmdRun (w : World) (parsed : error + Parsed) : list event * result :=
  run (CmdRun_body w parsed).


(** * Vocabulary of the properties

    Names for what the statements below speak of: classes of events, the
    values the phases of [CmdRun] hand on, and the body cut at the attach
    call and at the start call. *)

(** What one iteration of the filter's loop stores for the byte it read. *)
Definition delToBs (c : byte) : byte :=
  if Byte.eqb c libcontainerd.del then libcontainerd.backspace else c.

(** The events before the attach call. *)
Definition early (e : event) : Prop :=
  match e with
  | Fprintf_err _ | Usage | ReportError _ _ | Create _ _ _ _ _
  | ForwardAllSignals _ | GoDisplayID _ => True
  | _ => False
  end.

(** The events of the deferred calls. *)
Definition cleanup (e : event) : Prop :=
  match e with
  | RemoveContainer _ _ _ _ _ | RespClose | StopCatch | Fprintf_err _ => True
  | _ => False
  end.

(** A warning printed to the error stream. *)
Definition warning (e : event) : Prop :=
  match e with Fprintf_err _ => True | _ => False end.

(** The events of the terminal size monitor. *)
Definition monitoring (e : event) : Prop :=
  match e with MonitorTtySize _ _ | Fprintf_err _ => True | _ => False end.

(** The calls that ask the daemon for the exit status. *)
Definition statusCall (e : event) : Prop :=
  match e with Wait _ _ | GetExitCode _ _ => True | _ => False end.

(** Not a call for the exit status. *)
Definition quiet (e : event) : Prop :=
  match e with Wait _ _ | GetExitCode _ _ => False | _ => True end.

(** The events before the start call. *)
Definition beforeStart (e : event) : Prop :=
  match e with
  | Attach _ _ _ | GoHoldHijacked _ _ _ _ => True
  | _ => early e
  end.

(** The events after a start call that succeeded. *)
Definition afterwards (e : event) : Prop :=
  match e with
  | MonitorTtySize _ _ | Fprintf_err _ | RecvErrCh _ | Debugf _
  | RecvWaitDisplayID | Wait _ _ | GetExitCode _ _ => True
  | _ => False
  end.

(** The events of the start phase. *)
Definition fromStart (e : event) : Prop :=
  match e with
  | Start _ _ | Cancel | ReportError _ _ => True
  | _ => afterwards e
  end.

(** The parsed command line after line 114: [ArgsEscaped] is reset. *)
Definition normalized (p0 : Parsed) : Parsed :=
  let c := config p0 in
  mkParsed (mkConfig (Image c) (AttachStdin c) (AttachStdout c) (AttachStderr c)
                     (Tty c) (StdinOnce c) false)
           (hostConfig p0) (flags p0).

(** The explicit attach list of the command line is not empty. *)
Definition attachListGiven (fl : Flags) : bool :=
  match flAttach fl with
  | Some (_ :: _) => true
  | _ => false
  end.

(** The configuration after lines 131-134: nothing is attached. *)
Definition cleared (c : Config) : Config :=
  mkConfig (Image c) false false false (Tty c) false (ArgsEscaped c).

(** Line 176: [attach]. *)
Definition attached (c : Config) : bool :=
  AttachStdin c || AttachStdout c || AttachStderr c.

(** Lines 196-206: the options of the attach call. *)
Definition attachOptions (w : World) (p : Parsed) (c : Config)
  : ContainerAttachOptions :=
  mkAttachOptions true (AttachStdin c) (AttachStdout c) (AttachStderr c)
    (if negb (String.eqb (flDetachKeys (flags p)) "")
     then flDetachKeys (flags p) else configFile_DetachKeys w).

(** The start of the attach task, with the streams of lines 182-194, and
    what the copy loop returns on them. *)
Definition holdEvent (c : Config) : event :=
  GoHoldHijacked (Tty c)
    (if AttachStdin c then Some cli_in else None)
    (if AttachStdout c then Some cli_out else None)
    (if AttachStderr c then (if Tty c then Some cli_out else Some cli_err) else None).

Definition holdResult (w : World) (c : Config) : option error :=
  holdHijackedConnection w (Tty c)
    (if AttachStdin c then Some cli_in else None)
    (if AttachStdout c then Some cli_out else None)
    (if AttachStderr c then (if Tty c then Some cli_out else Some cli_err) else None).

(** What [errCh] delivers: the error of the copy loop, and when there is
    none, the error kept from the attach call. *)
Definition delivered (w : World) (c : Config) (errAttach : option error)
  : option error :=
  match holdResult w c with
  | None => errAttach
  | Some e => Some e
  end.

(** The attach phase when the attach call did not end the run. *)
Definition sessionOpened (w : World) (p : Parsed) (c : Config) (id : string)
  : M (option (option error)) :=
  let res := ContainerAttach w id (attachOptions w p c) in
  mkM [Attach id (attachOptions w p c) res; holdEvent c] [[RespClose]]
      (Go_on (Some (delivered w c res))).

(** How a status becomes the result of [CmdRun] (lines 297-300). *)
Definition statusResult (status : Z) : result :=
  if negb (status =? 0) then Status (mkStatusError status) else Nil.

(** The result when the code is taken from the inspect call, and when it is
    taken from the wait call. *)
Definition inspected (w : World) (id : string) : result :=
  match getExitCode w id with
  | (_, _, Some err) => Err err
  | (_, status, None) => statusResult status
  end.

Definition waited (w : World) (id : string) : result :=
  match ContainerWait w id with
  | (_, Some err) => Err err
  | (status, None) => statusResult status
  end.

Definition statusOf (fl : flow Z) : result :=
  match fl with Go_on status => statusResult status | Return r => r end.

(** A result other than the end of the process. *)
Definition ordinary (r : result) : Prop :=
  match r with Exit _ => False | _ => True end.

Definition result_of (m : M result) : result :=
  match outcome m with Go_on r => r | Return r => r end.

(** The body of [CmdRun] in pieces: up to the task that prints the
    identifier; from the attach call on; from the deferred removal on; what
    follows a start call that succeeded; what follows the attach task. *)
Definition upToAttach (w : World) (parsed : error + Parsed)
  : M (Parsed * Config * HostConfig * string) :=
  p ← preamble w parsed;
  c ← detachOrCheck w p;
  '(hc, id) ← create w p c;
  displayID p c hc id;;
  mret (p, c, hc, id).

Definition afterSession (w : World) (p : Parsed) (c : Config) (id : string)
  : M result :=
  if negb (AttachStdout c) && negb (AttachStderr c) then
    emit RecvWaitDisplayID;;
    leave Nil
  else
    status ← exitStatus w p c id;
    if negb (status =? 0) then leave (Status (mkStatusError status))
    else leave Nil.

Definition afterStart (w : World) (p : Parsed) (c : Config) (id : string)
    (errCh : option (option error)) : M result :=
  monitor w c id;;
  awaitSession errCh;;
  afterSession w p c id.

Definition startPhase (w : World) (p : Parsed) (c : Config) (id : string)
    (errCh : option (option error)) : M result :=
  deferRemove w p id;;
  start w c id errCh;;
  afterStart w p c id errCh.

Definition fromAttach (w : World) (x : Parsed * Config * HostConfig * string)
  : M result :=
  let '(p, c, hc, id) := x in
  errCh ← attachSession w p c id;
  startPhase w p c id errCh.

(** ** More vocabulary: writes in a row, and the pieces of the create phase *)

(** [Write] called with each identifier in turn, none of the file writes
    failing: the file system and the CID file at the end, with what each
    call returned. *)
Fixpoint writeAll (fs : filesystem) (cid : cidFile) (ids : list string)
  : filesystem * cidFile * list (option error) :=
  match ids with
  | [] => (fs, cid, [])
  | id :: rest =>
      let '(fs1, cid1, e) := cidFile_Write None fs cid id in
      let '(fs2, cid2, es) := writeAll fs1 cid1 rest in
      (fs2, cid2, e :: es)
  end.

(** The bytes of the identifiers, one after the other. *)
Definition allBytes (ids : list string) : list byte :=
  concat (map list_byte_of_string ids).

(** Lines 137-141: signals are forwarded unless there is a terminal. *)
Definition sigProxy (p : Parsed) (c : Config) : bool :=
  if Tty c then false else flSigProxy (flags p).

(** Lines 146-148: the host configuration the create call gets. *)
Definition createHostConfig (w : World) (p : Parsed) : HostConfig :=
  let hc0 := hostConfig p in
  if String.eqb (GOOS w) "windows" then
    mkHostConfig (OomKillDisable hc0) (Memory hc0) (DNS hc0) (Restart hc0)
                 (ContainerIDFile hc0) (getTtySize w)
  else hc0.

(** Line 152: the create call and its answer. *)
Definition createResult (w : World) (p : Parsed) (c : Config) : error + string :=
  createContainer w c (createHostConfig w p)
    (ContainerIDFile (createHostConfig w p)) (flName (flags p)).

Definition createEvent (w : World) (p : Parsed) (c : Config) : event :=
  Create c (createHostConfig w p) (ContainerIDFile (createHostConfig w p))
         (flName (flags p)) (createResult w p c).

(** Line 173: [--rm] with a restart policy "always" or "on-failure". *)
Definition restartConflict (p : Parsed) (hc : HostConfig) : bool :=
  flAutoRemove (flags p) && (IsAlways (Restart hc) || IsOnFailure (Restart hc)).

(** The events of lines 157-172 for the container [id], and the deferred
    [signal.StopCatch]. *)
Definition forwarding (p : Parsed) (c : Config) (id : string) : list event :=
  if sigProxy p c then [ForwardAllSignals id] else [].

Definition stopping (p : Parsed) (c : Config) : list event :=
  if sigProxy p c then [StopCatch] else [].

Definition displaying (c : Config) (id : string) : list event :=
  if negb (AttachStdout c) && negb (AttachStderr c) then [GoDisplayID id] else [].

(** The events of the deferred removal (lines 226-234). *)
Definition removal (w : World) (p : Parsed) (id : string) : list event :=
  if flAutoRemove (flags p) then
    RemoveContainer id true false true (removeContainer w id true false true)
    :: match removeContainer w id true false true with
       | Some err => [Fprintf_err (Error err +:+ newline)]
       | None => []
       end
  else [].

(** The events of the terminal size monitor (lines 250-254). *)
Definition monitorEvents (w : World) (c : Config) (id : string) : list event :=
  if (AttachStdin c || AttachStdout c || AttachStderr c) && Tty c
     && isTerminalOut w
  then
    MonitorTtySize id (monitorTtySize w id false)
    :: match monitorTtySize w id false with
       | Some err =>
           [Fprintf_err ("Error monitoring TTY size: " +:+ Error err +:+ newline)]
       | None => []
       end
  else [].

(** The events of the body, as opposed to those of the deferred calls only. *)
Definition bodyEvent (e : event) : Prop :=
  match e with
  | RemoveContainer _ _ _ _ _ | RespClose | StopCatch => False
  | _ => True
  end.

(** An event after the create call for the container [id]: no second
    create call, and no call for another container. *)
Definition afterCreate (id : string) (e : event) : Prop :=
  match e with
  | Create _ _ _ _ _ | Usage => False
  | ForwardAllSignals i | GoDisplayID i | Attach i _ _ | Start i _
  | MonitorTtySize i _ | Wait i _ | GetExitCode i _
  | RemoveContainer i _ _ _ _ => i = id
  | _ => True
  end.

(** What is printed before the create call. *)
Definition printedFirst (e : event) : Prop :=
  match e with Fprintf_err _ | Usage => True | _ => False end.

(** A world with other answers of the terminal size monitor and of the
    removal. *)
Definition withMonitorAndRemove (w : World)
    (mon : string -> bool -> option error)
    (rem : string -> bool -> bool -> bool -> option error) : World :=
  mkWorld (GOOS w) (getTtySize w) (IsLocalhost w) (CheckTtyInput w)
    (isTerminalOut w) (configFile_DetachKeys w) (createContainer w)
    (ContainerAttach w) (holdHijackedConnection w) (ContainerStart w)
    mon (ContainerWait w) (getExitCode w) rem.


(** The attach phase when it does not end the run: no session, or the
    session's events, its deferred close and what [errCh] will deliver. *)
Definition sessionCase (w : World) (p : Parsed) (c : Config) (id : string)
    (sess closing : list event) (errCh : option (option error)) : Prop :=
  (attached c = false /\ sess = [] /\ closing = [] /\ errCh = None) \/
  (attached c = true /\
   (ContainerAttach w id (attachOptions w p c) = None \/
    ContainerAttach w id (attachOptions w p c) = Some ErrPersistEOF) /\
   sess = [Attach id (attachOptions w p c)
             (ContainerAttach w id (attachOptions w p c)); holdEvent c] /\
   closing = [RespClose] /\
   errCh = Some (delivered w c (ContainerAttach w id (attachOptions w p c)))).

(** Not the removal of a container. *)
Definition notRemoval (e : event) : Prop :=
  match e with RemoveContainer _ _ _ _ _ => False | _ => True end.

(** A list that is [x] between a part of [P]s and a part of [Q]s. *)
Definition splitsAt {A} (P Q : A -> Prop) (x : A) (l : list A) : Prop :=
  exists body post, l = body ++ x :: post /\ Forall P body /\ Forall Q post.

(** A list that ends with [tail] after a part of [P]s. *)
Definition endsWith {A} (P : A -> Prop) (tail l : list A) : Prop :=
  exists body, l = body ++ tail /\ Forall P body.

(** [x] occurs in the list and [y] occurs after it. *)
Definition before {A} (x y : A) (l : list A) : Prop :=
  exists l1 l2, l = l1 ++ l2 /\ x ∈ l1 /\ y ∈ l2.

(** * Inputs for the examples *)

(** Two daemon errors: one with "not found" but not the whole phrase of
    [errCmdNotFound], one with "Container command" not at its start. *)
Definition notFoundWithoutPhrase : error :=
  errorString "Error response from daemon: Container command 'foo' not found".
Definition notAtTheStart : error :=
  errorString "exec failed: Container command 'foo' could not be invoked".

(** A writer that keeps what it is given: every call appends the bytes of
    its argument to the log and reports them all written. *)
Record recorder : Type := mkRecorder { written_log : list (list byte) }.

#[global] Instance recorder_WriteCloser : libcontainerd.WriteCloser recorder := {
  libcontainerd.Write r h b :=
    Some (h, mkRecorder (written_log r ++ [libcontainerd.bytes h b]),
          (Z.of_nat (libcontainerd.len b), None));
  libcontainerd.Close r := (r, None)
}.

(** A heap with one array of four bytes, and the slice of its last three:
    DEL, BACKSPACE, DEL. *)
Definition heap0 : libcontainerd.heap := {[ 1%positive := [x61; x7f; x08; x7f] ]}.
Definition slice0 : libcontainerd.slice := libcontainerd.mkSlice 1 1 3.

(** A CID file just created under "/run/cid", and a full disk. *)
Definition fs0 : filesystem := {[ "/run/cid" := [] ]}.
Definition cid0 : cidFile := mkCidFile "/run/cid" (mkFile "/run/cid" 0 false) false.
Definition diskFull : option (nat * error) :=
  Some (2%nat, errorString "write /run/cid: no space left on device").

(** Command lines, as parsed: [docker run busybox] attached to stdout and
    stderr, and its variants. *)
Definition busybox : Config := mkConfig "busybox" false true true false false true.
Definition hostDefault : HostConfig :=
  mkHostConfig None 0 [] (mkRestartPolicy "no" 0) "" (0, 0).
Definition hostRestartAlways : HostConfig :=
  mkHostConfig None 0 [] (mkRestartPolicy "always" 0) "" (0, 0).

Definition attachedRun : Parsed :=
  mkParsed busybox hostDefault (mkFlags false false true "" "" (Some [])).
Definition detachedRun : Parsed :=
  mkParsed busybox hostDefault (mkFlags false true true "" "" (Some [])).
Definition detachRm : Parsed :=
  mkParsed busybox hostDefault (mkFlags true true true "" "" (Some [])).
Definition noImageDetachRm : Parsed :=
  mkParsed (mkConfig "" false true true false false true) hostDefault
           (mkFlags true true true "" "" (Some [])).
Definition restartAlwaysRm : Parsed :=
  mkParsed busybox hostRestartAlways (mkFlags true false true "" "" (Some [])).

(** A daemon that does all it is asked; the container exits with 3. *)
Definition world0 : World :=
  mkWorld "linux" (0, 0) (fun _ => false) (fun _ _ => None) true ""
    (fun _ _ _ _ => inr "c0ffee") (fun _ _ => None) (fun _ _ _ _ => None)
    (fun _ => None) (fun _ _ => None) (fun _ => (3, None))
    (fun _ => (false, 3, None)) (fun _ _ _ _ => None).

(** The same, but the start call fails: the command does not exist. *)
Definition commandNotFound : error :=
  errorString "Error response from daemon: Container command 'nope' not found or does not exist.".

Definition worldStartFails : World :=
  mkWorld "linux" (0, 0) (fun _ => false) (fun _ _ => None) true ""
    (fun _ _ _ _ => inr "c0ffee") (fun _ _ => None) (fun _ _ _ _ => None)
    (fun _ => Some commandNotFound) (fun _ _ => None) (fun _ => (3, None))
    (fun _ => (false, 3, None)) (fun _ _ _ _ => None).

(** The same as [world0], but the attach call finds the connection closed;
    the copy loop then ends without an error of its own and the container
    exits with 0. *)
Definition worldConnectionClosed : World :=
  mkWorld "linux" (0, 0) (fun _ => false) (fun _ _ => None) true ""
    (fun _ _ _ _ => inr "c0ffee") (fun _ _ => Some ErrPersistEOF)
    (fun _ _ _ _ => None)
    (fun _ => None) (fun _ _ => None) (fun _ => (0, None))
    (fun _ => (false, 0, None)) (fun _ _ _ _ => None).
(** The same as [world0], but the create call fails: no such image. *)
Definition noSuchImage : error :=
  errorString "Error response from daemon: No such image: busybox:latest".

Definition worldCreateFails : World :=
  mkWorld "linux" (0, 0) (fun _ => false) (fun _ _ => None) true ""
    (fun _ _ _ _ => inl noSuchImage) (fun _ _ => None) (fun _ _ _ _ => None)
    (fun _ => None) (fun _ _ => None) (fun _ => (3, None))
    (fun _ => (false, 3, None)) (fun _ _ _ _ => None).

(** [docker run -it busybox] with the standard input not a terminal: the
    terminal check of the client refuses it. *)
Definition notATty : error :=
  errorString "cannot enable tty mode on non tty input".

Definition interactiveRun : Parsed :=
  mkParsed (mkConfig "busybox" true true true true true true) hostDefault
           (mkFlags false false true "" "" (Some [])).

Definition worldNoTerminal : World :=
  mkWorld "linux" (0, 0) (fun _ => false)
    (fun attachStdin ttyMode => if attachStdin && ttyMode then Some notATty else None)
    false ""
    (fun _ _ _ _ => inr "c0ffee") (fun _ _ => None) (fun _ _ _ _ => None)
    (fun _ => None) (fun _ _ => None) (fun _ => (3, None))
    (fun _ => (false, 3, None)) (fun _ _ _ _ => None).

(** [world0] with a terminal whose size cannot be read. *)
Definition resizeFailed : error := errorString "bad file descriptor".

Definition worldResizeFails : World :=
  withMonitorAndRemove world0 (fun _ _ => Some resizeFailed) (removeContainer world0).


(** * Properties *)

(** *** What the string functions compute *)

Lemma HasPrefix_spec (s p : string) :
  strings.HasPrefix s p = true <-> exists rest, s = p +:+ rest.
Proof.
  revert s; induction p as [|a p IH]; intros s; simpl.
  - split; [intros _; exists s; reflexivity | reflexivity].
  - destruct s as [|b s].
    + split; [discriminate | intros [rest H]; discriminate].
    + rewrite andb_true_iff, IH, Ascii.eqb_eq. split.
      * intros [-> [rest ->]]. exists rest. reflexivity.
      * intros [rest H]. injection H as -> ->. split; [reflexivity | eauto].
Qed.

Lemma Contains_spec (s sub : string) :
  strings.Contains s sub = true <-> exists pre post, s = pre +:+ sub +:+ post.
Proof.
  induction s as [|c s IH]; simpl.
  - rewrite orb_false_r, HasPrefix_spec. split.
    + intros [rest H]. exists "", rest. exact H.
    + intros [pre [post H]]. destruct pre; [eauto | discriminate].
  - rewrite orb_true_iff, HasPrefix_spec, IH. split.
    + intros [[rest H] | [pre [post H]]].
      * exists "", rest. exact H.
      * exists (String c pre), post. simpl. by rewrite H.
    + intros [pre [post H]]. destruct pre as [|d pre].
      * left. exists post. exact H.
      * right. simpl in H. injection H as _ H. eauto.
Qed.

Lemma drop_app (p rest : string) : strings.drop (String.length p) (p +:+ rest) = rest.
Proof. induction p; simpl; auto. Qed.

Lemma TrimPrefix_app (p rest : string) : strings.TrimPrefix (p +:+ rest) p = rest.
Proof.
  unfold strings.TrimPrefix.
  replace (strings.HasPrefix (p +:+ rest) p) with true.
  - apply drop_app.
  - symmetry. apply HasPrefix_spec. eauto.
Qed.

Lemma TrimPrefix_other (s p : string) :
  strings.HasPrefix s p = false -> strings.TrimPrefix s p = s.
Proof. unfold strings.TrimPrefix. intros ->. reflexivity. Qed.

(** ** The classification of daemon errors *)

(** C2, as the code has it: after the envelope prefix is stripped, the
    status is 127 exactly when the message starts with "Container command"
    and contains "not found or does not exist"; 126 exactly when it starts
    with "Container command", does not contain that phrase and contains
    "could not be invoked"; and 125 in every other case. *)
Theorem runStartContainerErr_classification (err : error) :
  let msg := strings.TrimPrefix (Error err) "Error response from daemon: " in
  let code := StatusCode (runStartContainerErr err) in
  let starts := exists rest, msg = "Container command" +:+ rest in
  let notFound := exists pre post, msg = pre +:+ errCmdNotFound +:+ post in
  let notInvoked :=
    exists pre post, msg = pre +:+ errCmdCouldNotBeInvoked +:+ post in
  (code = 127 <-> starts /\ notFound) /\
  (code = 126 <-> starts /\ ~ notFound /\ notInvoked) /\
  (code = 125 <-> ~ (starts /\ (notFound \/ notInvoked))) /\
  (forall m, Error err = "Error response from daemon: " +:+ m -> msg = m) /\
  ((~ exists m, Error err = "Error response from daemon: " +:+ m) ->
   msg = Error err).
Proof.
  intros msg code starts notFound notInvoked.
  assert (Hcode : code =
    if strings.HasPrefix msg "Container command" then
      if strings.Contains msg errCmdNotFound then 127
      else if strings.Contains msg errCmdCouldNotBeInvoked then 126 else 125
    else 125).
  { subst code msg. unfold runStartContainerErr.
    repeat match goal with |- context [if ?b then _ else _] => destruct b end;
      reflexivity. }
  assert (Hs : starts <-> strings.HasPrefix msg "Container command" = true)
    by (symmetry; apply HasPrefix_spec).
  assert (Hf : notFound <-> strings.Contains msg errCmdNotFound = true)
    by (symmetry; apply Contains_spec).
  assert (Hi : notInvoked <-> strings.Contains msg errCmdCouldNotBeInvoked = true)
    by (symmetry; apply Contains_spec).
  rewrite Hs, Hf, Hi, Hcode. clear Hs Hf Hi Hcode.
  split; [|split; [|split; [|split]]].
  - destruct (strings.HasPrefix msg _), (strings.Contains msg errCmdNotFound),
      (strings.Contains msg errCmdCouldNotBeInvoked); intuition congruence.
  - destruct (strings.HasPrefix msg _), (strings.Contains msg errCmdNotFound),
      (strings.Contains msg errCmdCouldNotBeInvoked); intuition congruence.
  - destruct (strings.HasPrefix msg _), (strings.Contains msg errCmdNotFound),
      (strings.Contains msg errCmdCouldNotBeInvoked); intuition congruence.
  - intros m Hm. subst msg. rewrite Hm. apply TrimPrefix_app.
  - intros Hno. subst msg. apply TrimPrefix_other.
    destruct (strings.HasPrefix _ _) eqn:E; [|reflexivity].
    apply HasPrefix_spec in E. contradiction.
Qed.

(** C2 as stated fails: a message that contains "Container command" and
    "not found" without the whole phrase "not found or does not exist" gets
    125, not 127; and so does a message that contains "Container command"
    and "could not be invoked" but does not start with the former, where the
    claim says 126. *)
Lemma runStartContainerErr_contains_is_not_enough :
  (strings.Contains
     (strings.TrimPrefix (Error notFoundWithoutPhrase) "Error response from daemon: ")
     "Container command" = true /\
   strings.Contains
     (strings.TrimPrefix (Error notFoundWithoutPhrase) "Error response from daemon: ")
     "not found" = true /\
   StatusCode (runStartContainerErr notFoundWithoutPhrase) = 125) /\
  (strings.Contains
     (strings.TrimPrefix (Error notAtTheStart) "Error response from daemon: ")
     "Container command" = true /\
   strings.Contains
     (strings.TrimPrefix (Error notAtTheStart) "Error response from daemon: ")
     "could not be invoked" = true /\
   StatusCode (runStartContainerErr notAtTheStart) = 125).
Proof. repeat split; vm_compute; reflexivity. Qed.

(** ** The stdin filter of process_windows.go *)

Module filter.
Import libcontainerd.

Lemma delToBs_del : delToBs x7f = x08.
Proof. reflexivity. Qed.

Lemma delToBs_other (c : byte) : c <> x7f -> delToBs c = c.
Proof.
  intros Hc. unfold delToBs. destruct (Byte.eqb c del) eqn:E; [|reflexivity].
  apply Byte.byte_dec_bl in E. contradiction.
Qed.

(** The loop, started at index [i] with [n] elements to go, over a buffer
    [p] that is not the array of [b]: the first [i] bytes of the buffer stay
    and the rest is the remapped tail of [b]. *)
Lemma remap_loop_spec (h : heap) (b : slice) (p : positive) (barr : list byte) :
  h !! ptr b = Some barr ->
  (off b + len b <= length barr)%nat ->
  p <> ptr b ->
  forall (n i : nat) (arr : list byte),
    length arr = len b ->
    (i + n)%nat = len b ->
    remap_loop (<[p := arr]> h) b (mkSlice p 0 (len b)) i n
    = Some (<[p := take i arr ++ (delToBs <$> take n (drop (off b + i) barr))]> h).
Proof.
  intros Hb Hin Hp. induction n as [|n IH]; intros i arr Harr Hlen; simpl.
  - rewrite app_nil_r, take_ge by lia. reflexivity.
  - assert (is_Some (barr !! (off b + i)%nat)) as [c Hc]
      by (apply lookup_lt_is_Some; lia).
    unfold load, store; simpl.
    rewrite !decide_True by lia.
    rewrite lookup_insert_ne by done. rewrite Hb, Hc.
    rewrite lookup_insert_eq. rewrite insert_insert_eq.
    repeat (case_decide; [|lia]).
    change (if Byte.eqb c del then backspace else c) with (delToBs c).
    rewrite IH by (rewrite ?length_insert; lia).
    f_equal. f_equal.
    rewrite (take_S_r _ _ (delToBs c)) by (apply list_lookup_insert_eq; lia).
    rewrite take_insert_ge by lia.
    rewrite (drop_S barr c (off b + i)) by done. simpl.
    rewrite <- app_assoc. simpl. rewrite Nat.add_succ_r. reflexivity.
Qed.

(** [remap] never panics on a slice that lies in its array: it allocates a
    new array, which holds the remapped bytes of [b] when the loop is over,
    and touches nothing else. *)
Lemma remap_spec (h : heap) (b : slice) :
  valid h b ->
  remap h b = Some (<[fresh (dom h) := delToBs <$> bytes h b]> h,
                    mkSlice (fresh (dom h)) 0 (len b)).
Proof.
  intros (barr & Hb & Hin). unfold remap, make.
  assert (Hp : fresh (dom h) <> ptr b).
  { intros Heq. apply (is_fresh (dom h)). rewrite Heq.
    apply elem_of_dom. eauto. }
  rewrite (remap_loop_spec h b _ barr Hb Hin Hp) by (rewrite ?length_replicate; lia).
  unfold bytes. rewrite Hb. simpl. rewrite Nat.add_0_r. reflexivity.
Qed.

Lemma bytes_length (h : heap) (s : slice) : valid h s -> length (bytes h s) = len s.
Proof.
  intros (arr & Hs & Hin). unfold bytes. rewrite Hs.
  rewrite length_take, length_drop. lia.
Qed.

Lemma bytes_buffer (h : heap) (b : slice) (p : positive) :
  valid h b ->
  bytes (<[p := delToBs <$> bytes h b]> h) (mkSlice p 0 (len b))
  = delToBs <$> bytes h b.
Proof.
  intros Hv. unfold bytes at 1. simpl. rewrite lookup_insert_eq. simpl.
  apply take_ge. rewrite length_fmap, bytes_length by done. lia.
Qed.

(** C9: for every input slice that lies in its array, [Write] of the filter
    allocates a buffer that did not exist before, leaves every array that
    existed (the caller's one among them) as it was, and calls the inner
    writer once, on that buffer, whose length is the input's; what the inner
    writer reports is what [Write] returns. *)
Theorem delToBsWriter_Write_fresh_buffer {W} `{WriteCloser W}
    (w : delToBsWriter W) (h : heap) (b : slice) :
  valid h b ->
  exists (h1 : heap) (bc : slice),
    remap h b = Some (h1, bc) /\
(ptr bc ∉ dom h) /\ ptr bc <> ptr b /\
    (forall p, p ∈ dom h -> h1 !! p = h !! p) /\
    bytes h1 b = bytes h b /\
    valid h1 bc /\ len bc = len b /\ length (bytes h1 bc) = length (bytes h b) /\
    delToBsWriter_Write w h b
    = match Write (inner w) h1 bc with
      | Some (h2, w', r) => Some (h2, mkDelToBsWriter w', r)
      | None => None
      end.
Proof.
  intros Hv. pose proof (remap_spec h b Hv) as Hr.
  set (p := fresh (dom h)) in *.
  assert (Hfresh : p ∉ dom h) by apply is_fresh.
  assert (Hp : p <> ptr b).
  { destruct Hv as (barr & Hb & _). intros Heq. apply Hfresh. rewrite Heq.
    apply elem_of_dom. eauto. }
  pose proof (bytes_buffer h b p Hv) as Hbc.
  eexists _, _. split; [exact Hr|]. simpl.
  split; [exact Hfresh|]. split; [exact Hp|].
  split. { intros q Hq. apply lookup_insert_ne. intros ->. contradiction. }
  split. { unfold bytes. rewrite lookup_insert_ne by done. reflexivity. }
  split. { exists (delToBs <$> bytes h b). simpl. rewrite lookup_insert_eq.
           split; [reflexivity|]. rewrite length_fmap, bytes_length by done. lia. }
  split; [reflexivity|].
  split. { rewrite Hbc, length_fmap. reflexivity. }
  unfold delToBsWriter_Write. rewrite Hr. reflexivity.
Qed.

(** C4: the filter is put in exactly when the session is a terminal and the
    console build is below 14350. When it is in, the inner writer gets, at
    every write, a buffer with 0x08 wherever the input has 0x7F and the
    input's byte everywhere else; when it is not, the writer returned is the
    one passed in and a write reaches it with the caller's own slice. *)
Theorem fixStdinBackspaceBehavior_filter {W} `{WriteCloser W}
    (osBuild : Z) (w : W) (tty : bool) (h : heap) (b : slice) :
  valid h b ->
  ((tty = true /\ osBuild < 14350) ->
   fixStdinBackspaceBehavior osBuild w tty = Filtered (mkDelToBsWriter w) /\
   exists (h1 : heap) (bc : slice),
     Write (fixStdinBackspaceBehavior osBuild w tty) h b
     = match Write w h1 bc with
       | Some (h2, w', r) => Some (h2, Filtered (mkDelToBsWriter w'), r)
       | None => None
       end /\
     length (bytes h1 bc) = length (bytes h b) /\
     forall (i : nat) (c : byte), bytes h b !! i = Some c ->
       (c = x7f -> bytes h1 bc !! i = Some x08) /\
       (c <> x7f -> bytes h1 bc !! i = Some c)) /\
  (~ (tty = true /\ osBuild < 14350) ->
   fixStdinBackspaceBehavior osBuild w tty = Unchanged w /\
   Write (fixStdinBackspaceBehavior osBuild w tty) h b
   = match Write w h b with
     | Some (h', w', r) => Some (h', Unchanged w', r)
     | None => None
     end).
Proof.
  intros Hv. split.
  - intros [-> Hlt]. unfold fixStdinBackspaceBehavior.
    replace (14350 <=? osBuild) with false by (symmetry; apply Z.leb_gt; lia).
    simpl. split; [reflexivity|].
    pose proof (remap_spec h b Hv) as Hr.
    exists (<[fresh (dom h) := delToBs <$> bytes h b]> h),
           (mkSlice (fresh (dom h)) 0 (len b)).
    split; [|split].
    + simpl. unfold delToBsWriter_Write. rewrite Hr. simpl.
      destruct (Write w _ _) as [[[h2 w'] r]|]; reflexivity.
    + rewrite bytes_buffer by done. apply length_fmap.
    + intros i c Hi. rewrite bytes_buffer by done.
      rewrite list_lookup_fmap, Hi. simpl. split.
      * intros ->. reflexivity.
      * intros Hc. rewrite delToBs_other by done. reflexivity.
  - intros Hno. unfold fixStdinBackspaceBehavior.
    assert (negb tty || (14350 <=? osBuild) = true) as ->.
    { destruct tty; simpl; [|reflexivity]. apply Z.leb_le.
      destruct (Z.lt_ge_cases osBuild 14350); [|done]. exfalso. auto. }
    split; reflexivity.
Qed.

Lemma valid_slice0 : valid heap0 slice0.
Proof. exists [x61; x7f; x08; x7f]. split; [reflexivity | simpl; lia]. Qed.

Example Write_slice0 :
  (let '(_, w, r) := default (heap0, mkDelToBsWriter (mkRecorder []), (0, None))
                       (delToBsWriter_Write (mkDelToBsWriter (mkRecorder []))
                          heap0 slice0) in (w, r))
  = (mkDelToBsWriter (mkRecorder [[x08; x08; x08]]), (3, None)).
Proof. vm_compute. reflexivity. Qed.

Lemma delToBsWriter_Write_fresh_buffer_witness :
  valid heap0 slice0 /\
  exists (h1 : heap) (bc : slice),
    remap heap0 slice0 = Some (h1, bc) /\
    bytes h1 slice0 = [x7f; x08; x7f] /\ len bc = 3%nat.
Proof.
  split; [exact valid_slice0|].
  destruct (delToBsWriter_Write_fresh_buffer
              (mkDelToBsWriter (mkRecorder [])) heap0 slice0 valid_slice0)
    as (h1 & bc & Hr & _ & _ & _ & Hb & _ & Hl & _).
  exists h1, bc. split; [exact Hr|]. split; [exact Hb | exact Hl].
Defined.

Lemma fixStdinBackspaceBehavior_filter_witness :
  valid heap0 slice0 /\
  fixStdinBackspaceBehavior 10586 (mkRecorder []) true
  = Filtered (mkDelToBsWriter (mkRecorder [])) /\
  fixStdinBackspaceBehavior 14350 (mkRecorder []) true = Unchanged (mkRecorder []) /\
  fixStdinBackspaceBehavior 10586 (mkRecorder []) false = Unchanged (mkRecorder []).
Proof.
  split; [exact valid_slice0|].
  split; [|split].
  - apply (fixStdinBackspaceBehavior_filter 10586 (mkRecorder []) true
             heap0 slice0 valid_slice0). split; [reflexivity | lia].
  - apply (fixStdinBackspaceBehavior_filter 14350 (mkRecorder []) true
             heap0 slice0 valid_slice0). intros [_ Hlt]. lia.
  - apply (fixStdinBackspaceBehavior_filter 10586 (mkRecorder []) false
             heap0 slice0 valid_slice0). intros [Htty _]. discriminate.
Defined.

End filter.

(** ** The CID file *)

Lemma File_Write_keeps_paths (fault : option (nat * error)) (fs : filesystem)
    (f : File) (b : list byte) (p : string) :
  is_Some ((File_Write fault fs f b).1.1 !! p) <-> is_Some (fs !! p).
Proof.
  unfold File_Write. destruct (closed f); simpl; [reflexivity|].
  destruct (fs !! name f) eqn:E; [|reflexivity].
  destruct (decide (name f = p)) as [<-|Hne].
  - rewrite lookup_insert_eq, E. split; eauto.
  - rewrite lookup_insert_ne by done. reflexivity.
Qed.

(** Whatever the state of the file: [Close] leaves the file system alone
    when the flag is set, and calls [os.Remove] on the path when it is not. *)
Lemma cidFile_Close_cases (rmFault : option error) (fs : filesystem) (cid : cidFile) :
  (written cid = true ->
   (cidFile_Close rmFault fs cid).1.1 = fs /\ (cidFile_Close rmFault fs cid).2 = None) /\
  (written cid = false ->
   (cidFile_Close rmFault fs cid).1.1 = (os_Remove rmFault fs (path cid)).1 /\
   ((cidFile_Close rmFault fs cid).2 = None <->
    (os_Remove rmFault fs (path cid)).2 = None)).
Proof.
  unfold cidFile_Close. destruct (File_Close (file cid)) as [f' e]. simpl.
  split; intros ->; simpl.
  - split; reflexivity.
  - destruct (os_Remove rmFault fs (path cid)) as [fs' [err|]]; simpl;
      split; try reflexivity; split; discriminate.
Qed.

(** C3: on a CID file as it was created, [Close] after a [Write] that
    succeeded leaves under the path exactly the bytes written and returns
    nil; [Close] with no [Write] before it removes the path; and when that
    removal fails, [Close] returns the error "failed to remove the CID file"
    with the path and the cause, the path being left as it was. In any
    state, [Close] with the flag set changes nothing in the file system. *)
Theorem cidFile_Close_removes_unless_written
    (fs : filesystem) (cid : cidFile) (id : string) (rmFault : option error) :
  opened fs cid ->
  (let after := cidFile_Write None fs cid id in
   after.2 = None /\ written after.1.2 = true /\
   (cidFile_Close rmFault after.1.1 after.1.2).2 = None /\
   (cidFile_Close rmFault after.1.1 after.1.2).1.1 !! path cid
   = Some (list_byte_of_string id)) /\
  (rmFault = None ->
   (cidFile_Close rmFault fs cid).2 = None /\
   (cidFile_Close rmFault fs cid).1.1 = delete (path cid) fs /\
   (cidFile_Close rmFault fs cid).1.1 !! path cid = None) /\
  (forall err, rmFault = Some err ->
   (cidFile_Close rmFault fs cid).2
   = Some (errorString ("failed to remove the CID file '" +:+ path cid +:+ "': "
                        +:+ Error err +:+ " " +:+ newline)) /\
   (cidFile_Close rmFault fs cid).1.1 = fs) /\
  (forall fs' cid', written cid' = true ->
   (cidFile_Close rmFault fs' cid').1.1 = fs' /\
   (cidFile_Close rmFault fs' cid').2 = None).
Proof.
  intros (Hfs & Hfile & Hw). split; [|split; [|split]];
    [| | |intros fs' cid'; apply cidFile_Close_cases].
  - unfold cidFile_Write, File_Write. rewrite Hfile. simpl. rewrite Hfs. simpl.
    split; [reflexivity|]. split; [reflexivity|].
    unfold cidFile_Close. simpl. split; [reflexivity|].
    rewrite lookup_insert_eq. unfold pwrite. simpl.
    rewrite drop_nil, app_nil_r. reflexivity.
  - intros ->. unfold cidFile_Close. rewrite Hfile, Hw. simpl. rewrite Hfs. simpl.
    split; [reflexivity|]. split; [reflexivity|]. apply lookup_delete_eq.
  - intros err ->. unfold cidFile_Close. rewrite Hfile, Hw. simpl.
    split; reflexivity.
Qed.

(** C10: when the write to the file fails, [Write] returns an error that
    wraps the cause and the flag is as it was; with the flag unset and the
    path still there, the [Close] that follows removes the path (when the
    removal itself does not fail). *)
Theorem cidFile_Write_failure_keeps_flag
    (wrFault : option (nat * error)) (fs : filesystem) (cid : cidFile)
    (id : string) (e : error) :
  (File_Write wrFault fs (file cid) (list_byte_of_string id)).2.2 = Some e ->
  let after := cidFile_Write wrFault fs cid id in
  after.2 = Some (errorString ("Failed to write the container ID to the file: "
                               +:+ Error e)) /\
  written after.1.2 = written cid /\
  path after.1.2 = path cid /\
  (written cid = false -> is_Some (fs !! path cid) ->
   (cidFile_Close None after.1.1 after.1.2).2 = None /\
   (cidFile_Close None after.1.1 after.1.2).1.1 !! path cid = None).
Proof.
  intros Hfail after.
  assert (Hpaths : is_Some (fs !! path cid) -> is_Some (after.1.1 !! path cid)).
  { intros Hp. subst after. unfold cidFile_Write.
    pose proof (File_Write_keeps_paths wrFault fs (file cid)
                  (list_byte_of_string id) (path cid)) as Hk.
    destruct (File_Write _ _ _ _) as [[fs' f'] [n [e'|]]]; simpl in *;
      apply Hk, Hp. }
  assert (Hshape : after.2 = Some (errorString
            ("Failed to write the container ID to the file: " +:+ Error e))
          /\ written after.1.2 = written cid /\ path after.1.2 = path cid).
  { subst after. unfold cidFile_Write.
    destruct (File_Write _ _ _ _) as [[fs' f'] [n [e'|]]]; simpl in *;
      [|discriminate]. injection Hfail as ->. repeat split. }
  destruct Hshape as (He & Hw & Hp). split; [exact He|].
  split; [exact Hw|]. split; [exact Hp|].
  intros Hunset Hthere. apply Hpaths in Hthere as [content Hc].
  unfold cidFile_Close. destruct (File_Close _) as [f' e']. simpl.
  rewrite Hw, Hunset, Hp. simpl. rewrite Hc. simpl.
  split; [reflexivity | apply lookup_delete_eq].
Qed.

Lemma opened_cid0 : opened fs0 cid0.
Proof. repeat split. Qed.

Lemma cidFile_Close_removes_unless_written_witness :
  opened fs0 cid0 /\
  (cidFile_Close None (cidFile_Write None fs0 cid0 "4f2a").1.1
                      (cidFile_Write None fs0 cid0 "4f2a").1.2).1.1 !! "/run/cid"
  = Some (list_byte_of_string "4f2a") /\
  (cidFile_Close None fs0 cid0).1.1 !! "/run/cid" = None.
Proof.
  split; [exact opened_cid0|].
  destruct (cidFile_Close_removes_unless_written fs0 cid0 "4f2a" None opened_cid0)
    as ((_ & _ & _ & Hkept) & Hgone & _ & _).
  split; [exact Hkept|]. apply Hgone. reflexivity.
Defined.

Example Close_reports_failed_removal :
  (cidFile_Close (Some (errorString "remove /run/cid: permission denied")) fs0 cid0).2
  = Some (errorString ("failed to remove the CID file '/run/cid': remove /run/cid: permission denied "
                       +:+ newline)).
Proof. reflexivity. Qed.

Lemma cidFile_Write_failure_keeps_flag_witness :
  (File_Write diskFull fs0 (file cid0) (list_byte_of_string "4f2a")).2.2
  = Some (errorString "write /run/cid: no space left on device") /\
  written (cidFile_Write diskFull fs0 cid0 "4f2a").1.2 = false /\
  (cidFile_Close None (cidFile_Write diskFull fs0 cid0 "4f2a").1.1
                      (cidFile_Write diskFull fs0 cid0 "4f2a").1.2).1.1 !! "/run/cid"
  = None.
Proof.
  assert (Hfail :
    (File_Write diskFull fs0 (file cid0) (list_byte_of_string "4f2a")).2.2
    = Some (errorString "write /run/cid: no space left on device"))
    by reflexivity.
  split; [exact Hfail|].
  destruct (cidFile_Write_failure_keeps_flag diskFull fs0 cid0 "4f2a" _ Hfail)
    as (_ & Hflag & _ & Hclose).
  split; [exact Hflag|]. apply Hclose; [reflexivity|]. exists []. reflexivity.
Defined.

(** ** [CmdRun]: the structure of a run *)

Section Monad.

Context {A B : Type}.

Lemma events_bind (m : M A) (f : A -> M B) :
  events (m ≫= f)
  = events m ++ match outcome m with Go_on a => events (f a) | Return _ => [] end.
Proof.
  unfold mbind, M_bind. destruct (outcome m); simpl;
    [reflexivity | symmetry; apply app_nil_r].
Qed.

Lemma deferred_bind (m : M A) (f : A -> M B) :
  deferred (m ≫= f)
  = match outcome m with Go_on a => deferred (f a) | Return _ => [] end
    ++ deferred m.
Proof. unfold mbind, M_bind. destruct (outcome m); reflexivity. Qed.

Lemma outcome_bind (m : M A) (f : A -> M B) :
  outcome (m ≫= f)
  = match outcome m with Go_on a => outcome (f a) | Return r => Return r end.
Proof. unfold mbind, M_bind. destruct (outcome m); reflexivity. Qed.

Lemma Forall_events_bind (P : event -> Prop) (m : M A) (f : A -> M B) :
  Forall P (events m) -> (forall a, Forall P (events (f a))) ->
  Forall P (events (m ≫= f)).
Proof.
  intros Hm Hf. rewrite events_bind. apply Forall_app. split; [exact Hm|].
  destruct (outcome m); [apply Hf | constructor].
Qed.

Lemma Forall_deferred_bind (P : event -> Prop) (m : M A) (f : A -> M B) :
  Forall P (concat (deferred m)) -> (forall a, Forall P (concat (deferred (f a)))) ->
  Forall P (concat (deferred (m ≫= f))).
Proof.
  intros Hm Hf. rewrite deferred_bind, concat_app. apply Forall_app.
  split; [|exact Hm]. destruct (outcome m); [apply Hf | constructor].
Qed.

End Monad.

Lemma M_eq {A} (m n : M A) :
  events m = events n -> deferred m = deferred n -> outcome m = outcome n -> m = n.
Proof. destruct m, n; simpl; intros -> -> ->; reflexivity. Qed.

Ltac unfold_M :=
  unfold when, emit, defer, leave, mret, M_ret, mbind, M_bind; simpl.

Ltac phase_cases :=
  unfold_M;
  repeat (match goal with
          | |- context [match ?x with _ => _ end] =>
              lazymatch x with
              | context [match _ with _ => _ end] => fail
              | _ => destruct x
              end
          end; simpl).

Ltac all_events := simpl; repeat constructor.

(** *** The phases, one by one *)

Lemma preamble_early w parsed :
  Forall early (events (preamble w parsed)) /\ deferred (preamble w parsed) = [].
Proof. unfold preamble. phase_cases; split; try reflexivity; all_events. Qed.

Lemma detachOrCheck_silent w p :
  events (detachOrCheck w p) = [] /\ deferred (detachOrCheck w p) = [].
Proof. unfold detachOrCheck. phase_cases; split; reflexivity. Qed.

Lemma create_early w p c :
  Forall early (events (create w p c)) /\
  Forall cleanup (concat (deferred (create w p c))).
Proof. unfold create. phase_cases; split; all_events. Qed.

Lemma displayID_early p c hc id :
  Forall early (events (displayID p c hc id)) /\ deferred (displayID p c hc id) = [].
Proof. unfold displayID. phase_cases; split; try reflexivity; all_events. Qed.

Lemma deferRemove_cleanup w p id :
  events (deferRemove w p id) = [] /\
  Forall cleanup (concat (deferred (deferRemove w p id))) /\
  outcome (deferRemove w p id) = Go_on tt.
Proof. unfold deferRemove. phase_cases; repeat split; all_events. Qed.

(** When the parser failed, the error is reported and the process exits
    with 125. *)
Lemma CmdRun_parse_error w err :
  CmdRun w (inl err) = ([ReportError (Error err) true], Exit 125).
Proof. reflexivity. Qed.

Lemma preamble_image w p0 :
  Image (config p0) <> "" ->
  outcome (preamble w (inr p0)) = Go_on (normalized p0) /\
  Forall warning (events (preamble w (inr p0))).
Proof.
  intros Himg. apply String.eqb_neq in Himg. unfold preamble. rewrite Himg.
  phase_cases; split; try reflexivity; all_events.
Qed.

Lemma preamble_no_image w p0 :
  Image (config p0) = "" ->
  outcome (preamble w (inr p0)) = Return Nil /\
  exists ws, Forall warning ws /\ events (preamble w (inr p0)) = ws ++ [Usage].
Proof.
  intros Himg. apply String.eqb_eq in Himg. unfold preamble. rewrite Himg.
  phase_cases; (split; [reflexivity|]).
  all: match goal with
       | |- exists ws, _ /\ ?l = _ => exists (removelast l)
       end; split; [all_events | reflexivity].
Qed.

Lemma preamble_go_on w p0 p :
  outcome (preamble w (inr p0)) = Go_on p ->
  Image (config p0) <> "" /\ p = normalized p0.
Proof.
  intros H. destruct (decide (Image (config p0) = "")) as [Himg|Himg].
  - apply (preamble_no_image w) in Himg as [Hr _]. congruence.
  - split; [exact Himg|]. apply (preamble_image w) in Himg as [Hg _]. congruence.
Qed.

Lemma detachOrCheck_detached w p :
  flDetach (flags p) = true ->
  outcome (detachOrCheck w p)
  = if attachListGiven (flags p) then Return (Err ErrConflictAttachDetach)
    else if flAutoRemove (flags p) then Return (Err ErrConflictDetachAutoRemove)
    else Go_on (cleared (config p)).
Proof.
  intros Hd. unfold detachOrCheck, attachListGiven. rewrite Hd. simpl.
  destruct (flAttach (flags p)) as [[|v vs]|]; simpl;
    destruct (flAutoRemove (flags p)); reflexivity.
Qed.

Lemma detachOrCheck_attached w p :
  flDetach (flags p) = false ->
  outcome (detachOrCheck w p)
  = match CheckTtyInput w (AttachStdin (config p)) (Tty (config p)) with
    | Some err => Return (Err err)
    | None => Go_on (config p)
    end.
Proof.
  intros Hd. unfold detachOrCheck. rewrite Hd. simpl.
  destruct (CheckTtyInput _ _ _); reflexivity.
Qed.

Lemma detachOrCheck_go_on w p c :
  outcome (detachOrCheck w p) = Go_on c ->
  (flDetach (flags p) = false /\ c = config p) \/
  (flDetach (flags p) = true /\ flAutoRemove (flags p) = false /\
   c = cleared (config p)).
Proof.
  destruct (flDetach (flags p)) eqn:Hd.
  - rewrite detachOrCheck_detached by done.
    destruct (attachListGiven _); [discriminate|].
    destruct (flAutoRemove _); [discriminate|].
    intros [= <-]. right. auto.
  - rewrite detachOrCheck_attached by done.
    destruct (CheckTtyInput _ _ _); [discriminate|].
    intros [= <-]. left. auto.
Qed.

Lemma create_go_on w p c hc id :
  outcome (create w p c) = Go_on (hc, id) ->
  Restart hc = Restart (hostConfig p) /\
  createContainer w c hc (ContainerIDFile hc) (flName (flags p)) = inr id /\
  exists rest,
    events (create w p c)
    = Create c hc (ContainerIDFile hc) (flName (flags p)) (inr id) :: rest.
Proof.
  unfold create. unfold_M.
  set (hc' := if String.eqb (GOOS w) "windows" then _ else _).
  assert (Hr : Restart hc' = Restart (hostConfig p))
    by (subst hc'; destruct (String.eqb _ _); reflexivity).
  destruct (createContainer w c hc' _ _) as [err|id'] eqn:Hc; simpl;
    [discriminate|].
  destruct (if Tty c then false else flSigProxy (flags p)); simpl;
    intros [= <- <-]; (split; [exact Hr|]); (split; [exact Hc|]); eauto.
Qed.

Lemma displayID_go_on p c hc id :
  outcome (displayID p c hc id) = Go_on tt ->
  events (displayID p c hc id)
  = if negb (AttachStdout c) && negb (AttachStderr c) then [GoDisplayID id] else [].
Proof.
  unfold displayID. unfold_M.
  destruct (negb (AttachStdout c) && negb (AttachStderr c)); simpl;
    destruct (flAutoRemove (flags p) && _); simpl; try discriminate; reflexivity.
Qed.

Lemma attachSession_eq w p c id :
  attachSession w p c id
  = if attached c then
      match ContainerAttach w id (attachOptions w p c) with
      | Some err =>
          if bool_decide (err = ErrPersistEOF) then sessionOpened w p c id
          else mkM [Attach id (attachOptions w p c) (Some err)] []
                   (Return (Err err))
      | None => sessionOpened w p c id
      end
    else mkM [] [] (Go_on None).
Proof.
  unfold attachSession, sessionOpened, attached, delivered, holdResult,
    holdEvent, attachOptions.
  destruct (AttachStdin c || AttachStdout c || AttachStderr c); [|reflexivity].
  unfold_M.
  destruct (ContainerAttach w id _) as [err|] eqn:Ha; simpl.
  - destruct (bool_decide (err = ErrPersistEOF)); simpl; [|reflexivity].
    destruct (holdHijackedConnection _ _ _ _ _); reflexivity.
  - destruct (holdHijackedConnection _ _ _ _ _); reflexivity.
Qed.

Lemma start_eq w c id errCh :
  start w c id errCh
  = match ContainerStart w id with
    | None => mkM [Start id None] [] (Go_on tt)
    | Some err =>
        mkM (Start id (Some err)
             :: (if attached c
                 then Cancel :: match errCh with
                                | Some v => [RecvErrCh v]
                                | None => []
                                end
                 else [])
             ++ [ReportError (Error err) false])
            [] (Return (Status (runStartContainerErr err)))
    end.
Proof.
  unfold start, attached. unfold_M.
  destruct (ContainerStart w id); [|reflexivity].
  destruct errCh, (AttachStdin c || AttachStdout c || AttachStderr c); reflexivity.
Qed.

Lemma monitor_quiet w c id :
  Forall monitoring (events (monitor w c id)) /\
  deferred (monitor w c id) = [] /\ outcome (monitor w c id) = Go_on tt.
Proof. unfold monitor. phase_cases; repeat split; all_events. Qed.

Lemma awaitSession_eq errCh :
  awaitSession errCh
  = match errCh with
    | None => mkM [] [] (Go_on tt)
    | Some None => mkM [RecvErrCh None] [] (Go_on tt)
    | Some (Some err) =>
        mkM [RecvErrCh (Some err); Debugf ("Error hijack: " +:+ Error err)] []
            (Return (Err err))
    end.
Proof. destruct errCh as [[err|]|]; reflexivity. Qed.

Lemma exitStatus_calls w p c id :
  Forall statusCall (events (exitStatus w p c id)) /\
  deferred (exitStatus w p c id) = [].
Proof. unfold exitStatus. phase_cases; split; try reflexivity; all_events. Qed.

Lemma exitStatus_eq w p c id :
  events (exitStatus w p c id)
  = (if flAutoRemove (flags p) then
       match ContainerWait w id with
       | (_, Some _) => [Wait id (ContainerWait w id)]
       | (_, None) =>
           [Wait id (ContainerWait w id); GetExitCode id (getExitCode w id)]
       end
     else if Tty c then [GetExitCode id (getExitCode w id)]
     else [Wait id (ContainerWait w id)]) /\
  statusOf (outcome (exitStatus w p c id))
  = (if flAutoRemove (flags p) then
       match ContainerWait w id with
       | (_, Some err) => Status (runStartContainerErr err)
       | (_, None) => inspected w id
       end
     else if Tty c then inspected w id
     else waited w id).
Proof.
  unfold exitStatus, inspected, waited, statusOf. unfold_M.
  destruct (flAutoRemove (flags p)); [|destruct (Tty c)]; simpl.
  - destruct (ContainerWait w id) as [st [err|]]; simpl; [split; reflexivity|].
    destruct (getExitCode w id) as [[running st'] [err|]]; split; reflexivity.
  - destruct (getExitCode w id) as [[running st'] [err|]]; split; reflexivity.
  - destruct (ContainerWait w id) as [st [err|]]; split; reflexivity.
Qed.

Ltac ordinary_cases :=
  phase_cases; intros ? [= <-]; exact I.

Lemma preamble_ordinary w p0 r :
  outcome (preamble w (inr p0)) = Return r -> ordinary r.
Proof. revert r. unfold preamble. ordinary_cases. Qed.

Lemma detachOrCheck_ordinary w p r :
  outcome (detachOrCheck w p) = Return r -> ordinary r.
Proof. revert r. unfold detachOrCheck. ordinary_cases. Qed.

Lemma create_ordinary w p c r :
  outcome (create w p c) = Return r -> ordinary r.
Proof. revert r. unfold create. ordinary_cases. Qed.

Lemma displayID_ordinary p c hc id r :
  outcome (displayID p c hc id) = Return r -> ordinary r.
Proof. revert r. unfold displayID. ordinary_cases. Qed.

Lemma attachSession_ordinary w p c id r :
  outcome (attachSession w p c id) = Return r -> ordinary r.
Proof. revert r. unfold attachSession. ordinary_cases. Qed.

Lemma start_ordinary w c id errCh r :
  outcome (start w c id errCh) = Return r -> ordinary r.
Proof. revert r. unfold start. ordinary_cases. Qed.

Lemma awaitSession_ordinary errCh r :
  outcome (awaitSession errCh) = Return r -> ordinary r.
Proof. revert r. unfold awaitSession. ordinary_cases. Qed.

Lemma exitStatus_ordinary w p c id r :
  outcome (exitStatus w p c id) = Return r -> ordinary r.
Proof. revert r. unfold exitStatus. ordinary_cases. Qed.

(** *** The run, from the phases

    From here on a phase is used through the lemmas above only. *)

#[local] Opaque preamble detachOrCheck create displayID attachSession
  deferRemove start monitor awaitSession exitStatus.

Ltac bind_norm :=
  repeat (rewrite ?events_bind, ?deferred_bind, ?outcome_bind; simpl).

Ltac split_pairs :=
  repeat match goal with x : (_ * _)%type |- _ => destruct x end.

Ltac by_outcomes :=
  bind_norm;
  repeat (match goal with
          | |- context [match outcome ?m with _ => _ end] =>
              destruct (outcome m)
          end; split_pairs; bind_norm);
  rewrite ?app_nil_r, <- ?app_assoc; try reflexivity.

Lemma CmdRun_body_split w parsed :
  CmdRun_body w parsed = upToAttach w parsed ≫= fromAttach w.
Proof.
  unfold CmdRun_body, upToAttach, fromAttach, startPhase, afterStart, afterSession.
  apply M_eq; by_outcomes.
Qed.

Lemma fromAttach_eq w p c hc id :
  fromAttach w (p, c, hc, id)
  = attachSession w p c id ≫= startPhase w p c id.
Proof. reflexivity. Qed.

#[local] Opaque fromAttach.

Ltac ordinary_step :=
  match goal with
  | |- context [match outcome ?m with _ => _ end] =>
      let E := fresh "E" in
      destruct (outcome m) eqn:E; split_pairs; bind_norm;
      [| first [ exact (preamble_ordinary _ _ _ E)
               | exact (detachOrCheck_ordinary _ _ _ E)
               | exact (create_ordinary _ _ _ _ E)
               | exact (displayID_ordinary _ _ _ _ _ E)
               | exact (attachSession_ordinary _ _ _ _ _ E)
               | exact (start_ordinary _ _ _ _ _ E)
               | exact (awaitSession_ordinary _ _ E)
               | exact (exitStatus_ordinary _ _ _ _ _ E)
               | (rewrite (proj2 (proj2 (deferRemove_cleanup _ _ _))) in E;
                  discriminate)
               | (rewrite (proj2 (proj2 (monitor_quiet _ _ _))) in E;
                  discriminate) ] ]
  end.

Lemma afterSession_ordinary w p c id : ordinary (result_of (afterSession w p c id)).
Proof.
  unfold afterSession, result_of.
  destruct (negb (AttachStdout c) && negb (AttachStderr c)); [exact I|].
  bind_norm. ordinary_step. destruct (negb (_ =? 0)); exact I.
Qed.

Lemma fromAttach_ordinary w x : ordinary (result_of (fromAttach w x)).
Proof.
  destruct x as [[[p c] hc] id]. rewrite fromAttach_eq.
  unfold startPhase, afterStart, result_of. bind_norm.
  repeat ordinary_step. apply afterSession_ordinary.
Qed.

Lemma upToAttach_ordinary w p0 r :
  outcome (upToAttach w (inr p0)) = Return r -> ordinary r.
Proof.
  assert (H : match outcome (upToAttach w (inr p0)) with
              | Return r => ordinary r
              | Go_on _ => True
              end).
  { unfold upToAttach. bind_norm. repeat ordinary_step. exact I. }
  intros E. rewrite E in H. exact H.
Qed.

(** A run on a parsed command line: all events of the body, then those of
    the deferred calls. *)
Lemma CmdRun_inr w p0 :
  CmdRun w (inr p0)
  = match outcome (upToAttach w (inr p0)) with
    | Return r =>
        (events (upToAttach w (inr p0))
         ++ concat (deferred (upToAttach w (inr p0))), r)
    | Go_on x =>
        (events (upToAttach w (inr p0)) ++ events (fromAttach w x)
         ++ concat (deferred (fromAttach w x))
         ++ concat (deferred (upToAttach w (inr p0))),
         result_of (fromAttach w x))
    end.
Proof.
  unfold CmdRun, run. rewrite CmdRun_body_split. bind_norm.
  destruct (outcome (upToAttach w (inr p0))) as [x|r] eqn:EU.
  - pose proof (fromAttach_ordinary w x) as Ho. unfold result_of in *.
    rewrite concat_app, <- !app_assoc.
    destruct (outcome (fromAttach w x)) as [r|r]; destruct r;
      try reflexivity; contradiction.
  - pose proof (upToAttach_ordinary w p0 r EU) as Ho. rewrite !app_nil_r.
    destruct r; try reflexivity; contradiction.
Qed.

Lemma upToAttach_early w parsed :
  Forall early (events (upToAttach w parsed)) /\
  Forall cleanup (concat (deferred (upToAttach w parsed))).
Proof.
  unfold upToAttach. split.
  - apply Forall_events_bind; [apply preamble_early|]. intros p.
    apply Forall_events_bind;
      [rewrite (proj1 (detachOrCheck_silent w p)); constructor|]. intros c.
    apply Forall_events_bind; [apply create_early|]. intros [hc id].
    apply Forall_events_bind; [apply displayID_early|]. intros _. constructor.
  - apply Forall_deferred_bind;
      [rewrite (proj2 (preamble_early w parsed)); constructor|]. intros p.
    apply Forall_deferred_bind;
      [rewrite (proj2 (detachOrCheck_silent w p)); constructor|]. intros c.
    apply Forall_deferred_bind; [apply create_early|]. intros [hc id].
    apply Forall_deferred_bind;
      [rewrite (proj2 (displayID_early _ _ _ _)); constructor|]. intros _.
    constructor.
Qed.

(** When the run gets to the attach phase, every phase before it went on. *)
Lemma upToAttach_go_on w p0 p c hc id :
  outcome (upToAttach w (inr p0)) = Go_on (p, c, hc, id) ->
  Image (config p0) <> "" /\ p = normalized p0 /\
  outcome (detachOrCheck w p) = Go_on c /\
  outcome (create w p c) = Go_on (hc, id) /\
  outcome (displayID p c hc id) = Go_on tt /\
  events (upToAttach w (inr p0))
  = events (preamble w (inr p0)) ++ events (create w p c)
    ++ events (displayID p c hc id).
Proof.
  unfold upToAttach. bind_norm.
  destruct (outcome (preamble w (inr p0))) as [p'|] eqn:E1; [|discriminate].
  bind_norm.
  destruct (outcome (detachOrCheck w p')) as [c'|] eqn:E2; [|discriminate].
  bind_norm.
  destruct (outcome (create w p' c')) as [[hc' id']|] eqn:E3; [|discriminate].
  bind_norm.
  destruct (outcome (displayID p' c' hc' id')) as [[]|] eqn:E4; [|discriminate].
  simpl. intros [= -> -> -> ->].
  apply preamble_go_on in E1 as [Himg Hp].
  rewrite (proj1 (detachOrCheck_silent w p)), app_nil_r. simpl.
  repeat split; assumption.
Qed.

Lemma afterSession_deferred w p c id : deferred (afterSession w p c id) = [].
Proof.
  unfold afterSession.
  destruct (negb (AttachStdout c) && negb (AttachStderr c)); [reflexivity|].
  bind_norm. rewrite (proj2 (exitStatus_calls w p c id)).
  destruct (outcome (exitStatus w p c id)); [|reflexivity].
  destruct (negb (_ =? 0)); reflexivity.
Qed.

Lemma afterStart_deferred w p c id errCh : deferred (afterStart w p c id errCh) = [].
Proof.
  unfold afterStart. bind_norm.
  destruct (monitor_quiet w c id) as (_ & Hd & Ho). rewrite Hd, Ho.
  rewrite awaitSession_eq. destruct errCh as [[e|]|]; simpl;
    rewrite ?afterSession_deferred; reflexivity.
Qed.

(** The start phase when the start call fails. *)
Lemma startPhase_failed w p c id errCh err :
  ContainerStart w id = Some err ->
  startPhase w p c id errCh
  = mkM (Start id (Some err)
         :: (if attached c
             then Cancel :: match errCh with
                            | Some v => [RecvErrCh v]
                            | None => []
                            end
             else [])
         ++ [ReportError (Error err) false])
        (deferred (deferRemove w p id))
        (Return (Status (runStartContainerErr err))).
Proof.
  intros Hs. unfold startPhase.
  destruct (deferRemove_cleanup w p id) as (He & _ & Ho).
  apply M_eq; bind_norm; rewrite ?He, ?Ho, start_eq, Hs; simpl;
    rewrite ?app_nil_r; reflexivity.
Qed.

(** The start phase when the container starts. *)
Lemma startPhase_started w p c id errCh :
  ContainerStart w id = None ->
  events (startPhase w p c id errCh)
  = Start id None :: events (afterStart w p c id errCh) /\
  deferred (startPhase w p c id errCh) = deferred (deferRemove w p id) /\
  outcome (startPhase w p c id errCh) = outcome (afterStart w p c id errCh).
Proof.
  intros Hs. unfold startPhase.
  destruct (deferRemove_cleanup w p id) as (He & _ & Ho).
  bind_norm. rewrite ?He, ?Ho, start_eq, Hs. simpl.
  rewrite afterStart_deferred. repeat split; reflexivity.
Qed.

Lemma early_beforeStart (e : event) : early e -> beforeStart e.
Proof. destruct e; simpl; tauto. Qed.

Lemma Forall_weaken {A} (P Q : A -> Prop) (l : list A) :
  (forall x, P x -> Q x) -> Forall P l -> Forall Q l.
Proof. intros HPQ H. induction H; constructor; auto. Qed.

Lemma afterSession_afterwards w p c id :
  Forall afterwards (events (afterSession w p c id)).
Proof.
  unfold afterSession.
  destruct (negb (AttachStdout c) && negb (AttachStderr c)); [all_events|].
  apply Forall_events_bind.
  - eapply Forall_weaken; [|apply exitStatus_calls]. intros []; simpl; tauto.
  - intros st. destruct (negb (st =? 0)); constructor.
Qed.

Lemma afterStart_afterwards w p c id errCh :
  Forall afterwards (events (afterStart w p c id errCh)).
Proof.
  unfold afterStart. apply Forall_events_bind.
  - eapply Forall_weaken; [|apply monitor_quiet]. intros []; simpl; tauto.
  - intros _. apply Forall_events_bind.
    + rewrite awaitSession_eq. destruct errCh as [[e|]|]; all_events.
    + intros _. apply afterSession_afterwards.
Qed.

Ltac elem_cases H :=
  repeat (first
    [ apply elem_of_app in H as [H|H]
    | apply elem_of_cons in H as [H|H]
    | (apply elem_of_nil in H; contradiction) ]);
  try discriminate H;
  try (match goal with
       | F : Forall ?P ?l |- _ =>
           exfalso; exact (proj1 (Forall_forall P l) F _ H)
       | F : forall x, Forall _ _ |- _ =>
           exfalso; exact (proj1 (Forall_forall _ _) (F _) _ H)
       end).

(** C7: when the start call fails while an attach session is open, the
    primary task cancels the context, receives the result of the attach
    task, and only then reports the error and returns it classified by
    [runStartContainerErr]; after that only the deferred calls run. *)
Theorem CmdRun_start_failure_waits_for_session
    (w : World) (p0 : Parsed) (tr : list event) (r : result)
    (id : string) (err : error) :
  CmdRun w (inr p0) = (tr, r) ->
  Start id (Some err) ∈ tr ->
  (exists t i o e, GoHoldHijacked t i o e ∈ tr) ->
  exists pre v post,
    tr = pre ++ [Start id (Some err); Cancel; RecvErrCh v;
                 ReportError (Error err) false] ++ post /\
    Forall beforeStart pre /\
    Forall cleanup post /\
    r = Status (runStartContainerErr err).
Proof.
  intros Hrun Hstart (t & i & o & e & Hhold).
  rewrite CmdRun_inr in Hrun.
  destruct (upToAttach_early w (inr p0)) as [HUe HUd].
  destruct (outcome (upToAttach w (inr p0))) as [[[[p c] hc] id']|r0] eqn:EU;
    injection Hrun as <- <-; [|elem_cases Hstart].
  destruct (deferRemove_cleanup w p id') as (_ & HRd & _).
  pose proof (afterStart_afterwards w p c id') as Hafter.
  unfold result_of in *. rewrite fromAttach_eq, attachSession_eq in *.
  assert (Hopened :
    attached c = true ->
      Start id (Some err)
        ∈ events (upToAttach w (inr p0))
          ++ events (sessionOpened w p c id' ≫= startPhase w p c id')
          ++ concat (deferred (sessionOpened w p c id' ≫= startPhase w p c id'))
          ++ concat (deferred (upToAttach w (inr p0))) ->
      exists pre v post,
        events (upToAttach w (inr p0))
        ++ events (sessionOpened w p c id' ≫= startPhase w p c id')
        ++ concat (deferred (sessionOpened w p c id' ≫= startPhase w p c id'))
        ++ concat (deferred (upToAttach w (inr p0)))
        = pre ++ [Start id (Some err); Cancel; RecvErrCh v;
                  ReportError (Error err) false] ++ post /\
        Forall beforeStart pre /\
        Forall cleanup post /\
        match outcome (sessionOpened w p c id' ≫= startPhase w p c id') with
        | Go_on r | Return r => r
        end = Status (runStartContainerErr err)).
  { intros Hatt. unfold sessionOpened. bind_norm.
    destruct (ContainerStart w id') as [err'|] eqn:Hs.
    - rewrite (startPhase_failed _ _ _ _ _ _ Hs). simpl. rewrite Hatt. simpl.
      intros Hin. rewrite concat_app in Hin. simpl in Hin.
      elem_cases Hin. injection Hin as <- <-.
      exists (events (upToAttach w (inr p0))
              ++ [Attach id (attachOptions w p c)
                    (ContainerAttach w id (attachOptions w p c)); holdEvent c]),
        (delivered w c (ContainerAttach w id (attachOptions w p c))),
        (concat (deferred (deferRemove w p id)) ++ [RespClose]
         ++ concat (deferred (upToAttach w (inr p0)))).
      split; [|split; [|split]].
      + rewrite concat_app, <- !app_assoc. reflexivity.
      + apply Forall_app. split.
        * eapply Forall_weaken; [apply early_beforeStart | exact HUe].
        * unfold holdEvent. repeat constructor.
      + apply Forall_app. split; [exact HRd|].
        apply Forall_cons. split; [exact I | exact HUd].
      + reflexivity.
    - destruct (startPhase_started w p c id'
                  (Some (delivered w c (ContainerAttach w id' (attachOptions w p c))))
                  Hs) as (-> & -> & _).
      intros Hin. rewrite concat_app in Hin. simpl in Hin. elem_cases Hin. }
  destruct (attached c) eqn:Hatt.
  - destruct (ContainerAttach w id' (attachOptions w p c)) as [aerr|] eqn:Ha.
    + destruct (bool_decide (aerr = ErrPersistEOF)).
      * apply (Hopened eq_refl Hstart).
      * simpl in Hstart. elem_cases Hstart.
    + apply (Hopened eq_refl Hstart).
  - exfalso. bind_norm. simpl in Hhold.
    destruct (ContainerStart w id') as [err'|] eqn:Hs.
    + rewrite (startPhase_failed _ _ _ _ _ _ Hs) in Hhold. simpl in Hhold.
      rewrite Hatt in Hhold. simpl in Hhold. rewrite app_nil_r in Hhold.
      elem_cases Hhold.
    + destruct (startPhase_started w p c id' None Hs) as (He & Hd & _).
      rewrite He, Hd in Hhold. rewrite app_nil_r in Hhold. elem_cases Hhold.
Qed.

(** *** Runs with neither stdout nor stderr attached *)

Lemma early_quiet (e : event) : early e -> quiet e.
Proof. destruct e; simpl; tauto. Qed.

Lemma cleanup_quiet (e : event) : cleanup e -> quiet e.
Proof. destruct e; simpl; tauto. Qed.

Lemma monitoring_quiet (e : event) : monitoring e -> quiet e.
Proof. destruct e; simpl; tauto. Qed.

Lemma startPhase_deferred w p c id errCh :
  deferred (startPhase w p c id errCh) = deferred (deferRemove w p id).
Proof.
  destruct (ContainerStart w id) as [err|] eqn:Hs.
  - rewrite (startPhase_failed _ _ _ _ _ _ Hs). reflexivity.
  - apply (startPhase_started w p c id errCh Hs).
Qed.

Lemma fromAttach_deferred w x : Forall cleanup (concat (deferred (fromAttach w x))).
Proof.
  destruct x as [[[p c] hc] id]. rewrite fromAttach_eq.
  destruct (deferRemove_cleanup w p id) as (_ & HRd & _).
  rewrite attachSession_eq.
  assert (Hopened : Forall cleanup (concat (deferred
            (sessionOpened w p c id ≫= startPhase w p c id)))).
  { unfold sessionOpened. bind_norm. rewrite startPhase_deferred, concat_app.
    apply Forall_app. split; [exact HRd | repeat constructor]. }
  destruct (attached c).
  - destruct (ContainerAttach w id _) as [err|]; [|exact Hopened].
    destruct (bool_decide _); [exact Hopened | constructor].
  - bind_norm. rewrite startPhase_deferred, app_nil_r. exact HRd.
Qed.

(** After a start that succeeded, a run with neither stdout nor stderr
    attached receives from the attach task when there is one, then waits
    for the identifier to be printed and returns nil. *)
Lemma afterStart_detached w p c id errCh :
  AttachStdout c = false -> AttachStderr c = false ->
  Forall quiet (events (afterStart w p c id errCh)) /\
  ((forall e, RecvErrCh (Some e) ∉ events (afterStart w p c id errCh)) ->
   outcome (afterStart w p c id errCh) = Return Nil /\
   exists mid,
     events (afterStart w p c id errCh) = mid ++ [RecvWaitDisplayID] /\
     Forall quiet mid).
Proof.
  intros Ho He. unfold afterStart, afterSession. rewrite Ho, He. simpl.
  destruct (monitor_quiet w c id) as (Hm & _ & Hgo).
  assert (Hmq : Forall quiet (events (monitor w c id)))
    by (eapply Forall_weaken; [apply monitoring_quiet | exact Hm]).
  bind_norm. rewrite Hgo, awaitSession_eq.
  destruct errCh as [[e|]|]; simpl.
  - split.
    + apply Forall_app. split; [exact Hmq | repeat constructor].
    + intros Hno. exfalso. apply (Hno e).
      apply elem_of_app. right. apply list_elem_of_here.
  - split.
    + apply Forall_app. split; [exact Hmq | repeat constructor].
    + intros _. split; [reflexivity|].
      exists (events (monitor w c id) ++ [RecvErrCh None]).
      split; [rewrite <- app_assoc; reflexivity|].
      apply Forall_app. split; [exact Hmq | repeat constructor].
  - split.
    + apply Forall_app. split; [exact Hmq | repeat constructor].
    + intros _. split; [reflexivity|].
      exists (events (monitor w c id)). split; [reflexivity | exact Hmq].
Qed.

Lemma startPhase_detached w p c id errCh :
  AttachStdout c = false -> AttachStderr c = false ->
  Forall quiet (events (startPhase w p c id errCh)) /\
  (forall id', Start id' None ∈ events (startPhase w p c id errCh) ->
   (forall e, RecvErrCh (Some e) ∉ events (startPhase w p c id errCh)) ->
   id' = id /\
   outcome (startPhase w p c id errCh) = Return Nil /\
   exists mid,
     events (startPhase w p c id errCh)
     = Start id None :: mid ++ [RecvWaitDisplayID] /\
     Forall quiet mid).
Proof.
  intros Ho He.
  destruct (afterStart_detached w p c id errCh Ho He) as [Hq Hdone].
  pose proof (afterStart_afterwards w p c id errCh) as Hafter.
  destruct (ContainerStart w id) as [err|] eqn:Hs.
  - rewrite (startPhase_failed _ _ _ _ _ _ Hs). simpl. split.
    + constructor; [exact I|]. apply Forall_app. split; [|repeat constructor].
      destruct (attached c); [|constructor]. constructor; [exact I|].
      destruct errCh; repeat constructor.
    + intros id' Hin _. exfalso.
      apply elem_of_cons in Hin as [Hin|Hin]; [discriminate|].
      apply elem_of_app in Hin as [Hin|Hin]; [|elem_cases Hin].
      destruct (attached c); [|elem_cases Hin].
      destruct errCh; elem_cases Hin.
  - destruct (startPhase_started w p c id errCh Hs) as (-> & _ & ->). split.
    + constructor; [exact I | exact Hq].
    + intros id' Hin Hno.
      assert (id' = id) as ->.
      { apply elem_of_cons in Hin as [Hin|Hin]; [congruence|]. elem_cases Hin. }
      split; [reflexivity|].
      destruct Hdone as (Hr & mid & Hmid & Hqm).
      { intros e Hin'. apply (Hno e). apply list_elem_of_further. exact Hin'. }
      split; [exact Hr|]. exists mid. rewrite Hmid. split; [reflexivity | exact Hqm].
Qed.

Lemma fromAttach_detached w p c hc id :
  AttachStdout c = false -> AttachStderr c = false ->
  Forall quiet (events (fromAttach w (p, c, hc, id))) /\
  (forall id', Start id' None ∈ events (fromAttach w (p, c, hc, id)) ->
   (forall e, RecvErrCh (Some e) ∉ events (fromAttach w (p, c, hc, id))) ->
   id' = id /\
   result_of (fromAttach w (p, c, hc, id)) = Nil /\
   exists mid,
     events (fromAttach w (p, c, hc, id)) = mid ++ [RecvWaitDisplayID] /\
     Start id None ∈ mid).
Proof.
  intros Ho He. unfold result_of. rewrite fromAttach_eq, attachSession_eq.
  assert (Hopened :
    Forall quiet (events (sessionOpened w p c id ≫= startPhase w p c id)) /\
    (forall id',
       Start id' None ∈ events (sessionOpened w p c id ≫= startPhase w p c id) ->
       (forall e, RecvErrCh (Some e)
                  ∉ events (sessionOpened w p c id ≫= startPhase w p c id)) ->
       id' = id /\
       match outcome (sessionOpened w p c id ≫= startPhase w p c id) with
       | Go_on r | Return r => r
       end = Nil /\
       exists mid,
         events (sessionOpened w p c id ≫= startPhase w p c id)
         = mid ++ [RecvWaitDisplayID] /\
         Start id None ∈ mid)).
  { unfold sessionOpened. bind_norm.
    set (errCh := Some (delivered w c (ContainerAttach w id (attachOptions w p c)))).
    destruct (startPhase_detached w p c id errCh Ho He) as [Hq Hdone]. split.
    - constructor; [exact I|]. constructor; [exact I | exact Hq].
    - intros id' Hin Hno.
      apply elem_of_cons in Hin as [Hin|Hin]; [discriminate|].
      apply elem_of_cons in Hin as [Hin|Hin]; [discriminate|].
      destruct (Hdone id' Hin) as (-> & Hr & mid & Hmid & _).
      { intros e Hin'. apply (Hno e). do 2 apply list_elem_of_further. exact Hin'. }
      split; [reflexivity|]. rewrite Hr. split; [reflexivity|].
      eexists (_ :: _ :: Start id None :: mid). rewrite Hmid.
      split; [reflexivity|]. do 2 apply list_elem_of_further. apply list_elem_of_here. }
  destruct (attached c).
  - destruct (ContainerAttach w id _) as [err|]; [|exact Hopened].
    destruct (bool_decide _); [exact Hopened|]. simpl. split.
    + repeat constructor.
    + intros id' Hin. elem_cases Hin.
  - bind_norm.
    destruct (startPhase_detached w p c id None Ho He) as [Hq Hdone].
    split; [exact Hq|]. intros id' Hin Hno.
    destruct (Hdone id' Hin Hno) as (-> & Hr & mid & Hmid & _).
    split; [reflexivity|]. rewrite Hr. split; [reflexivity|].
    exists (Start id None :: mid). rewrite Hmid.
    split; [reflexivity | apply list_elem_of_here].
Qed.

Lemma normalized_flags p0 : flags (normalized p0) = flags p0.
Proof. reflexivity. Qed.

(** C5: in a run with neither stdout nor stderr attached, no wait call and
    no inspect call is ever issued; and once the start call has succeeded
    and no attach task has failed, the run returns nil, the task printing
    the identifier of the created container having been started before
    the start call, and the last thing the primary task does before the
    deferred calls is to receive from [waitDisplayID]. *)
Theorem CmdRun_detached_returns_after_display
    (w : World) (p0 : Parsed) (tr : list event) (r : result) :
  CmdRun w (inr p0) = (tr, r) ->
  flDetach (flags p0) = true \/
  (AttachStdout (config p0) = false /\ AttachStderr (config p0) = false) ->
  Forall quiet tr /\
  forall id, Start id None ∈ tr -> (forall e, RecvErrCh (Some e) ∉ tr) ->
    r = Nil /\
    exists pre mid post,
      tr = pre ++ [GoDisplayID id] ++ mid ++ [RecvWaitDisplayID] ++ post /\
      Forall early pre /\
      (exists c hc cidfile name, Create c hc cidfile name (inr id) ∈ pre) /\
      Start id None ∈ mid /\ Forall cleanup post.
Proof.
  intros Hrun Hdetached. rewrite CmdRun_inr in Hrun.
  destruct (upToAttach_early w (inr p0)) as [HUe HUd].
  assert (HUq : Forall quiet (events (upToAttach w (inr p0))))
    by (eapply Forall_weaken; [apply early_quiet | exact HUe]).
  assert (HUdq : Forall quiet (concat (deferred (upToAttach w (inr p0)))))
    by (eapply Forall_weaken; [apply cleanup_quiet | exact HUd]).
  destruct (outcome (upToAttach w (inr p0))) as [[[[p c] hc] id']|r0] eqn:EU;
    injection Hrun as <- <-.
  2: { split; [apply Forall_app; auto|]. intros id Hin. elem_cases Hin. }
  pose proof (fromAttach_deferred w (p, c, hc, id')) as HFd.
  destruct (upToAttach_go_on _ _ _ _ _ _ EU) as (_ & -> & Hdet & Hcre & Hdis & HUev).
  assert (Hc : AttachStdout c = false /\ AttachStderr c = false).
  { apply detachOrCheck_go_on in Hdet as [[Hd ->]|(_ & _ & ->)];
      [|split; reflexivity].
    rewrite normalized_flags in Hd.
    destruct Hdetached as [Hd'|Hboth]; [congruence | exact Hboth]. }
  destruct Hc as [Ho He].
  apply displayID_go_on in Hdis. rewrite Ho, He in Hdis. simpl in Hdis.
  destruct (fromAttach_detached w (normalized p0) c hc id' Ho He) as [HFq HFdone].
  split.
  - repeat (apply Forall_app; split); try assumption.
    eapply Forall_weaken; [apply cleanup_quiet | exact HFd].
  - intros id Hin Hno.
    assert (Hin' : Start id None ∈ events (fromAttach w (normalized p0, c, hc, id')))
      by (elem_cases Hin; exact Hin).
    destruct (HFdone id Hin') as (-> & Hr & mid & Hmid & Hmid').
    { intros e Hine. apply (Hno e).
      apply elem_of_app. right. apply elem_of_app. left. exact Hine. }
    split; [exact Hr|].
    exists (events (preamble w (inr p0)) ++ events (create w (normalized p0) c)),
      mid,
      (concat (deferred (fromAttach w (normalized p0, c, hc, id')))
       ++ concat (deferred (upToAttach w (inr p0)))).
    split; [|split; [|split; [|split]]].
    + rewrite HUev, Hdis, Hmid, <- !app_assoc. reflexivity.
    + rewrite HUev, Hdis in HUe. rewrite app_assoc in HUe.
      apply Forall_app in HUe as [HUe _]. exact HUe.
    + apply create_go_on in Hcre as (_ & _ & rest & Hev).
      exists c, hc, (ContainerIDFile hc), (flName (flags (normalized p0))).
      apply elem_of_app. right. rewrite Hev. apply list_elem_of_here.
    + exact Hmid'.
    + apply Forall_app. split; assumption.
Qed.

(** *** Attached runs: the exit status *)

Lemma afterSession_attached w p c id :
  AttachStdout c || AttachStderr c = true ->
  events (afterSession w p c id) = events (exitStatus w p c id) /\
  result_of (afterSession w p c id) = statusOf (outcome (exitStatus w p c id)).
Proof.
  intros Hatt. unfold afterSession, result_of, statusOf, statusResult.
  replace (negb (AttachStdout c) && negb (AttachStderr c)) with false
    by (destruct (AttachStdout c), (AttachStderr c); simpl in *; congruence).
  bind_norm. destruct (outcome (exitStatus w p c id)) as [st|r]; simpl.
  - destruct (negb (st =? 0)); simpl; rewrite app_nil_r; split; reflexivity.
  - rewrite app_nil_r. split; reflexivity.
Qed.

Lemma afterStart_attached w p c id v :
  AttachStdout c || AttachStderr c = true ->
  RecvErrCh None ∈ events (afterStart w p c id (Some v)) ->
  events (afterStart w p c id (Some v))
  = events (monitor w c id) ++ [RecvErrCh None] ++ events (exitStatus w p c id) /\
  result_of (afterStart w p c id (Some v))
  = statusOf (outcome (exitStatus w p c id)).
Proof.
  intros Hatt. destruct (afterSession_attached w p c id Hatt) as [He Hr].
  destruct (monitor_quiet w c id) as (Hm & _ & Hgo).
  unfold afterStart, result_of in *. bind_norm. rewrite Hgo, awaitSession_eq.
  destruct v as [err|]; simpl.
  - intros Hin. exfalso. elem_cases Hin.
  - intros _. rewrite He. split; [reflexivity | exact Hr].
Qed.

(** C6: in an attached run that got its container started and its attach
    task finished without error, the calls for the exit status are, with
    auto-remove, the wait call followed (when it did not fail) by the
    inspect call, the result being the code of the inspect call, or the
    wait call's error classified by [runStartContainerErr]; without
    auto-remove and without a terminal, the wait call alone, whose code is
    the result; without auto-remove and with a terminal, the inspect call
    alone, whose code is the result. No other such call is in the trace. *)
Theorem CmdRun_exit_status_source
    (w : World) (p0 : Parsed) (tr : list event) (r : result) (id : string) :
  CmdRun w (inr p0) = (tr, r) ->
  flDetach (flags p0) = false ->
  AttachStdout (config p0) || AttachStderr (config p0) = true ->
  Start id None ∈ tr ->
  RecvErrCh None ∈ tr ->
  exists pre post,
    Forall quiet pre /\ Forall cleanup post /\
    if flAutoRemove (flags p0) then
      match ContainerWait w id with
      | (_, Some err) =>
          tr = pre ++ [Wait id (ContainerWait w id)] ++ post /\
          r = Status (runStartContainerErr err)
      | (_, None) =>
          tr = pre ++ [Wait id (ContainerWait w id);
                       GetExitCode id (getExitCode w id)] ++ post /\
          r = inspected w id
      end
    else if Tty (config p0) then
      tr = pre ++ [GetExitCode id (getExitCode w id)] ++ post /\
      r = inspected w id
    else
      tr = pre ++ [Wait id (ContainerWait w id)] ++ post /\
      r = waited w id.
Proof.
  intros Hrun Hd Hatt Hstart Hrecv. rewrite CmdRun_inr in Hrun.
  destruct (upToAttach_early w (inr p0)) as [HUe HUd].
  destruct (outcome (upToAttach w (inr p0))) as [[[[p c] hc] id']|r0] eqn:EU;
    injection Hrun as Htr Hr; [|subst tr; elem_cases Hstart].
  pose proof (fromAttach_deferred w (p, c, hc, id')) as HFd.
  destruct (upToAttach_go_on _ _ _ _ _ _ EU) as (_ & -> & Hdet & _).
  apply detachOrCheck_go_on in Hdet as [[_ ->]|(Hd' & _)];
    [|rewrite normalized_flags in Hd'; congruence].
  set (p := normalized p0) in *. set (c := config p) in *.
  assert (Hatt' : AttachStdout c || AttachStderr c = true) by exact Hatt.
  assert (Hattached : attached c = true).
  { unfold attached. destruct (AttachStdin c); [reflexivity|]. exact Hatt'. }
  destruct (monitor_quiet w c id') as (Hm & _ & _).
  assert (Hmq : Forall quiet (events (monitor w c id')))
    by (eapply Forall_weaken; [apply monitoring_quiet | exact Hm]).
  pose proof (afterStart_afterwards w p c id') as Hafter.
  destruct (exitStatus_eq w p c id') as [Hcalls Hstatus].
  unfold result_of in Hr. rewrite fromAttach_eq, attachSession_eq, Hattached in *.
  set (m := sessionOpened w p c id' ≫= startPhase w p c id') in *.
  assert (Hmain :
    events (upToAttach w (inr p0)) ++ events m ++ concat (deferred m)
    ++ concat (deferred (upToAttach w (inr p0))) = tr ->
    match outcome m with Go_on r | Return r => r end = r ->
    Forall cleanup (concat (deferred m)) ->
    exists pre post,
      Forall quiet pre /\ Forall cleanup post /\
      if flAutoRemove (flags p0) then
        match ContainerWait w id with
        | (_, Some err) =>
            tr = pre ++ [Wait id (ContainerWait w id)] ++ post /\
            r = Status (runStartContainerErr err)
        | (_, None) =>
            tr = pre ++ [Wait id (ContainerWait w id);
                         GetExitCode id (getExitCode w id)] ++ post /\
            r = inspected w id
        end
      else if Tty (config p0) then
        tr = pre ++ [GetExitCode id (getExitCode w id)] ++ post /\
        r = inspected w id
      else
        tr = pre ++ [Wait id (ContainerWait w id)] ++ post /\
        r = waited w id).
  { clear Htr Hr HFd. intros Htr Hr HFd. subst tr r.
    apply elem_of_app in Hstart as [Hstart|Hstart]; [elem_cases Hstart|].
    apply elem_of_app in Hstart as [Hstart|Hstart]; [|elem_cases Hstart].
    apply elem_of_app in Hrecv as [Hrecv|Hrecv]; [elem_cases Hrecv|].
    apply elem_of_app in Hrecv as [Hrecv|Hrecv]; [|elem_cases Hrecv].
    assert (Hshape :
      id = id' /\
      exists pre',
        Forall quiet pre' /\
        events m = pre' ++ events (exitStatus w p c id') /\
        match outcome m with Go_on r | Return r => r end
        = statusOf (outcome (exitStatus w p c id'))).
    { subst m. unfold sessionOpened in *. revert Hstart Hrecv. bind_norm.
      set (v := delivered w c (ContainerAttach w id' (attachOptions w p c))).
      destruct (ContainerStart w id') as [err|] eqn:Hs.
      - rewrite (startPhase_failed _ _ _ _ _ _ Hs). simpl. rewrite Hattached.
        intros Hin. exfalso. elem_cases Hin.
      - destruct (startPhase_started w p c id' (Some v) Hs) as (-> & _ & ->).
        intros Hin Hin'.
        assert (id = id') as ->.
        { elem_cases Hin. congruence. }
        split; [reflexivity|].
        assert (Hrecv' : RecvErrCh None ∈ events (afterStart w p c id' (Some v)))
          by (elem_cases Hin'; exact Hin').
        destruct (afterStart_attached w p c id' v Hatt' Hrecv') as [Hev Hres].
        unfold result_of in Hres. rewrite Hev, Hres.
        exists (Attach id' (attachOptions w p c)
                  (ContainerAttach w id' (attachOptions w p c))
                :: holdEvent c :: Start id' None
                :: events (monitor w c id') ++ [RecvErrCh None]).
        split; [|split; [|reflexivity]].
        + repeat (constructor; [exact I|]). apply Forall_app.
          split; [exact Hmq | repeat constructor].
        + simpl. rewrite <- app_assoc. reflexivity. }
    destruct Hshape as (-> & pre' & Hq & Hev & Hres).
    rewrite Hev, Hres, Hstatus, Hcalls.
    exists (events (upToAttach w (inr p0)) ++ pre'),
      (concat (deferred m) ++ concat (deferred (upToAttach w (inr p0)))).
    split; [|split].
    - apply Forall_app. split; [|exact Hq].
      eapply Forall_weaken; [apply early_quiet | exact HUe].
    - apply Forall_app. split; assumption.
    - change (flags p) with (flags p0). change (Tty c) with (Tty (config p0)).
      destruct (flAutoRemove (flags p0)); [|destruct (Tty (config p0))].
      + destruct (ContainerWait w id') as [st [err|]];
          (split; [rewrite <- !app_assoc; reflexivity | reflexivity]).
      + split; [rewrite <- !app_assoc; reflexivity | reflexivity].
      + split; [rewrite <- !app_assoc; reflexivity | reflexivity]. }
  destruct (ContainerAttach w id' (attachOptions w p c)) as [aerr|];
    [destruct (bool_decide (aerr = ErrPersistEOF))|].
  - exact (Hmain Htr Hr HFd).
  - exfalso. subst tr. simpl in Hstart. elem_cases Hstart.
  - exact (Hmain Htr Hr HFd).
Qed.

(** *** The attach session *)

Lemma startPhase_fromStart w p c id errCh :
  Forall fromStart (events (startPhase w p c id errCh)).
Proof.
  destruct (ContainerStart w id) as [err|] eqn:Hs.
  - rewrite (startPhase_failed _ _ _ _ _ _ Hs). simpl.
    destruct (attached c), errCh; repeat constructor.
  - destruct (startPhase_started w p c id errCh Hs) as (-> & _).
    constructor; [exact I|].
    eapply Forall_weaken; [|apply afterStart_afterwards].
    intros []; simpl; tauto.
Qed.

(** After a start that succeeded the primary task receives what the attach
    task delivers, and returns it when it is an error. *)
Lemma afterStart_session w p c id v :
  RecvErrCh v ∈ events (afterStart w p c id (Some v)) /\
  (forall x, v = Some x -> result_of (afterStart w p c id (Some v)) = Err x).
Proof.
  destruct (monitor_quiet w c id) as (_ & _ & Hgo).
  unfold afterStart, result_of. bind_norm. rewrite Hgo, awaitSession_eq.
  destruct v as [x|]; simpl.
  - split.
    + apply elem_of_app. right. apply list_elem_of_here.
    + intros y [= <-]. reflexivity.
  - split.
    + apply elem_of_app. right. apply list_elem_of_here.
    + intros y Hy. discriminate.
Qed.

(** C8, as the code has it: a failure of the attach call other than
    [ErrPersistEOF] is returned as it is, before any attach task or start
    call; on [ErrPersistEOF] (as on success) the attach task is started and
    the run goes on, and once the container has started, the primary task
    receives from the attach task the error of the copy loop or, when
    there is none, the error kept from the attach call, and returns it
    when it is not nil. *)
Theorem CmdRun_attach_errors
    (w : World) (p0 : Parsed) (tr : list event) (r : result)
    (id : string) (o : ContainerAttachOptions) (res : option error) :
  CmdRun w (inr p0) = (tr, r) ->
  Attach id o res ∈ tr ->
  (forall err, res = Some err -> err <> ErrPersistEOF ->
     r = Err err /\
     (forall t i o' e, GoHoldHijacked t i o' e ∉ tr) /\
     (forall id' res', Start id' res' ∉ tr)) /\
  (res = None \/ res = Some ErrPersistEOF ->
   exists t i o' e,
     GoHoldHijacked t i o' e ∈ tr /\
     forall id', Start id' None ∈ tr ->
       RecvErrCh (match holdHijackedConnection w t i o' e with
                  | Some x => Some x
                  | None => res
                  end) ∈ tr /\
       forall x, match holdHijackedConnection w t i o' e with
                 | Some x => Some x
                 | None => res
                 end = Some x -> r = Err x).
Proof.
  intros Hrun Hattach. rewrite CmdRun_inr in Hrun.
  destruct (upToAttach_early w (inr p0)) as [HUe HUd].
  destruct (outcome (upToAttach w (inr p0))) as [[[[p c] hc] id']|r0] eqn:EU;
    injection Hrun as Htr Hr; [|subst tr; elem_cases Hattach].
  pose proof (fromAttach_deferred w (p, c, hc, id')) as HFd.
  pose proof (startPhase_fromStart w p c id') as HSe.
  unfold result_of in Hr. rewrite fromAttach_eq, attachSession_eq in *.
  destruct (attached c) eqn:Hattached.
  2: { exfalso. subst tr. revert Hattach. bind_norm. intros Hattach.
       elem_cases Hattach. }
  set (o' := attachOptions w p c) in *.
  set (res' := ContainerAttach w id' o') in *.
  assert (Hopened :
    events (upToAttach w (inr p0))
    ++ events (sessionOpened w p c id' ≫= startPhase w p c id')
    ++ concat (deferred (sessionOpened w p c id' ≫= startPhase w p c id'))
    ++ concat (deferred (upToAttach w (inr p0))) = tr ->
    match outcome (sessionOpened w p c id' ≫= startPhase w p c id') with
    | Go_on r | Return r => r
    end = r ->
    Forall cleanup
      (concat (deferred (sessionOpened w p c id' ≫= startPhase w p c id'))) ->
    res = res' /\
    exists t i o'' e,
      GoHoldHijacked t i o'' e ∈ tr /\
      forall id'', Start id'' None ∈ tr ->
        RecvErrCh (match holdHijackedConnection w t i o'' e with
                   | Some x => Some x
                   | None => res
                   end) ∈ tr /\
        forall x, match holdHijackedConnection w t i o'' e with
                  | Some x => Some x
                  | None => res
                  end = Some x -> r = Err x).
  { clear Htr Hr HFd. intros Htr Hr HFd. subst tr r. revert Hattach HFd.
    unfold sessionOpened. bind_norm. fold o' res'.
    set (v := delivered w c res'). intros Hattach HFd.
    assert (res = res') as ->.
    { specialize (HSe (Some v)). elem_cases Hattach. congruence. }
    split; [reflexivity|].
    exists (Tty c), (if AttachStdin c then Some cli_in else None),
      (if AttachStdout c then Some cli_out else None),
      (if AttachStderr c then (if Tty c then Some cli_out else Some cli_err)
       else None).
    split.
    { apply elem_of_app. right. apply list_elem_of_further, list_elem_of_here. }
    intros id'' Hin.
    change (match holdHijackedConnection w (Tty c) _ _ _ with
            | Some x => Some x
            | None => res'
            end) with v.
    destruct (ContainerStart w id') as [err|] eqn:Hs.
    - exfalso. revert Hin HFd. rewrite (startPhase_failed _ _ _ _ _ _ Hs). simpl.
      rewrite Hattached. intros Hin HFd. elem_cases Hin.
    - destruct (startPhase_started w p c id' (Some v) Hs) as (He & _ & Ho).
      rewrite He, Ho. destruct (afterStart_session w p c id' v) as [Hrecv Hret].
      split.
      + apply elem_of_app. right. do 3 apply list_elem_of_further.
        apply elem_of_app. left. exact Hrecv.
      + intros x Hx. apply (Hret x Hx). }
  destruct res' as [aerr|] eqn:Hres'.
  - destruct (bool_decide (aerr = ErrPersistEOF)) eqn:Heof.
    + apply bool_decide_eq_true in Heof as ->.
      destruct (Hopened Htr Hr HFd) as (-> & Hgo). split.
      * intros err [= <-] Hne. contradiction.
      * intros _. exact Hgo.
    + apply bool_decide_eq_false in Heof. subst tr r. simpl in *.
      assert (res = Some aerr /\ id = id' /\ o = o') as (-> & -> & ->).
      { elem_cases Hattach. injection Hattach as -> -> ->. auto. }
      split.
      * intros err [= <-] _. split; [reflexivity|]. split.
        -- intros t i o'' e Hin. elem_cases Hin.
        -- intros id'' res'' Hin. elem_cases Hin.
      * intros [Hn|[= ->]]; [discriminate | contradiction].
  - destruct (Hopened Htr Hr HFd) as (-> & Hgo). split.
    + intros err Hn. discriminate.
    + intros _. exact Hgo.
Qed.

(** *** The conflicts of [-d] *)

(** C1, as the code has it: on a command line with an image that asks for
    [-d] together with a non-empty attach list or with [--rm], [CmdRun]
    returns the conflict error of that pair (the attach list first) and has
    by then only printed warnings: no call to the daemon was made, the
    create call in particular. *)
Theorem CmdRun_detach_conflicts (w : World) (p0 : Parsed) :
  Image (config p0) <> "" ->
  flDetach (flags p0) = true ->
  attachListGiven (flags p0) = true \/ flAutoRemove (flags p0) = true ->
  (CmdRun w (inr p0)).2
  = Err (if attachListGiven (flags p0) then ErrConflictAttachDetach
         else ErrConflictDetachAutoRemove) /\
  Forall warning (CmdRun w (inr p0)).1 /\
  forall c hc cidfile name res, Create c hc cidfile name res ∉ (CmdRun w (inr p0)).1.
Proof.
  intros Himg Hd Hconflict. rewrite CmdRun_inr.
  destruct (preamble_image w p0 Himg) as [Hgo Hwarn].
  pose proof (detachOrCheck_detached w (normalized p0) Hd) as Hdet.
  rewrite normalized_flags in Hdet.
  assert (HU : outcome (upToAttach w (inr p0))
               = Return (Err (if attachListGiven (flags p0)
                              then ErrConflictAttachDetach
                              else ErrConflictDetachAutoRemove)) /\
               events (upToAttach w (inr p0)) = events (preamble w (inr p0)) /\
               deferred (upToAttach w (inr p0)) = []).
  { unfold upToAttach. bind_norm. rewrite Hgo. bind_norm. rewrite Hdet.
    rewrite (proj1 (detachOrCheck_silent w (normalized p0))),
      (proj2 (detachOrCheck_silent w (normalized p0))),
      (proj2 (preamble_early w (inr p0))).
    destruct (attachListGiven (flags p0)); simpl.
    - rewrite !app_nil_r. repeat split.
    - destruct (flAutoRemove (flags p0)); simpl.
      + rewrite !app_nil_r. repeat split.
      + destruct Hconflict; discriminate. }
  destruct HU as (-> & -> & ->). simpl. rewrite app_nil_r.
  split; [reflexivity|]. split; [exact Hwarn|].
  intros c hc cidfile name res Hin.
  exact (proj1 (Forall_forall _ _) Hwarn _ Hin).
Qed.

Lemma CmdRun_detach_conflicts_witness :
  (CmdRun world0 (inr detachRm)).2 = Err ErrConflictDetachAutoRemove /\
  (CmdRun world0 (inr detachRm)).1 = [].
Proof.
  destruct (CmdRun_detach_conflicts world0 detachRm) as (Hr & _ & _).
  - discriminate.
  - reflexivity.
  - right. reflexivity.
  - split; [exact Hr | vm_compute; reflexivity].
Defined.

(** C1 as stated fails on two of its inputs. With an empty image the usage
    is printed and nil is returned, whatever the options. And the conflict
    of [--rm] with the restart policy "always" is returned after the create
    call was made (and the signal forwarder started). *)
Lemma CmdRun_conflict_not_before_create :
  (flDetach (flags noImageDetachRm) = true /\
   flAutoRemove (flags noImageDetachRm) = true /\
   CmdRun world0 (inr noImageDetachRm) = ([Usage], Nil)) /\
  (flAutoRemove (flags restartAlwaysRm) = true /\
   IsAlways (Restart (hostConfig restartAlwaysRm)) = true /\
   CmdRun world0 (inr restartAlwaysRm)
   = ([Create (mkConfig "busybox" false true true false false false)
         hostRestartAlways "" "" (inr "c0ffee");
       ForwardAllSignals "c0ffee"; StopCatch],
      Err ErrConflictRestartPolicyAndAutoRemove)).
Proof. repeat split; vm_compute; reflexivity. Qed.

(** *** Witnesses and examples of runs *)

Lemma pair_eta {A B} (x : A * B) : x = (x.1, x.2).
Proof. destruct x; reflexivity. Qed.

Lemma CmdRun_start_failure_waits_for_session_witness :
  exists pre v post,
    (CmdRun worldStartFails (inr attachedRun)).1
    = pre ++ [Start "c0ffee" (Some commandNotFound); Cancel; RecvErrCh v;
              ReportError (Error commandNotFound) false] ++ post /\
    (CmdRun worldStartFails (inr attachedRun)).2 = Status (mkStatusError 127).
Proof.
  destruct (CmdRun_start_failure_waits_for_session worldStartFails attachedRun
              _ _ "c0ffee" commandNotFound
              (pair_eta (CmdRun worldStartFails (inr attachedRun))))
    as (pre & v & post & Htr & _ & _ & Hr).
  - vm_compute. do 4 apply list_elem_of_further. apply list_elem_of_here.
  - exists false, None, (Some cli_out), (Some cli_err).
    vm_compute. do 3 apply list_elem_of_further. apply list_elem_of_here.
  - exists pre, v, post. split; [exact Htr|]. rewrite Hr. reflexivity.
Defined.

Example CmdRun_start_failure_trace :
  CmdRun worldStartFails (inr attachedRun)
  = ([Create (mkConfig "busybox" false true true false false false)
        hostDefault "" "" (inr "c0ffee");
      ForwardAllSignals "c0ffee";
      Attach "c0ffee" (mkAttachOptions true false true true "") None;
      GoHoldHijacked false None (Some cli_out) (Some cli_err);
      Start "c0ffee" (Some commandNotFound); Cancel; RecvErrCh None;
      ReportError (Error commandNotFound) false;
      RespClose; StopCatch],
     Status (mkStatusError 127)).
Proof. vm_compute. reflexivity. Qed.

Lemma CmdRun_detached_returns_after_display_witness :
  (CmdRun world0 (inr detachedRun)).2 = Nil /\
  exists pre mid post,
    (CmdRun world0 (inr detachedRun)).1
    = pre ++ [GoDisplayID "c0ffee"] ++ mid ++ [RecvWaitDisplayID] ++ post.
Proof.
  destruct (CmdRun_detached_returns_after_display world0 detachedRun _ _
              (pair_eta (CmdRun world0 (inr detachedRun))))
    as [_ Hdone].
  - left. reflexivity.
  - destruct (Hdone "c0ffee") as (Hr & pre & mid & post & Htr & _).
    + vm_compute. do 3 apply list_elem_of_further. apply list_elem_of_here.
    + intros e Hin. vm_compute in Hin.
      repeat (apply elem_of_cons in Hin as [Hin|Hin]; [discriminate|]).
      apply elem_of_nil in Hin. exact Hin.
    + split; [exact Hr|]. exists pre, mid, post. exact Htr.
Defined.

Example CmdRun_detached_trace :
  CmdRun world0 (inr detachedRun)
  = ([Create (mkConfig "busybox" false false false false false false)
        hostDefault "" "" (inr "c0ffee");
      ForwardAllSignals "c0ffee"; GoDisplayID "c0ffee";
      Start "c0ffee" None; RecvWaitDisplayID; StopCatch],
     Nil).
Proof. vm_compute. reflexivity. Qed.

Lemma CmdRun_exit_status_source_witness :
  exists pre post,
    (CmdRun world0 (inr attachedRun)).1
    = pre ++ [Wait "c0ffee" (3, None)] ++ post /\
    Forall quiet pre /\ Forall cleanup post /\
    (CmdRun world0 (inr attachedRun)).2 = Status (mkStatusError 3).
Proof.
  destruct (CmdRun_exit_status_source world0 attachedRun _ _ "c0ffee"
              (pair_eta (CmdRun world0 (inr attachedRun))))
    as (pre & post & Hq & Hc & Htr & Hr).
  - reflexivity.
  - reflexivity.
  - vm_compute. do 4 apply list_elem_of_further. apply list_elem_of_here.
  - vm_compute. do 5 apply list_elem_of_further. apply list_elem_of_here.
  - exists pre, post. split; [exact Htr|]. split; [exact Hq|].
    split; [exact Hc|]. rewrite Hr. reflexivity.
Defined.

(** C8 as stated fails: when the attach call finds the connection closed
    and everything else goes well (the copy loop ends without error, the
    container starts), the run does not complete cleanly: [CmdRun] returns
    the connection-closed error to its caller, and asks for no exit
    status. *)
Lemma CmdRun_connection_closed_is_returned :
  CmdRun worldConnectionClosed (inr attachedRun)
  = ([Create (mkConfig "busybox" false true true false false false)
        hostDefault "" "" (inr "c0ffee");
      ForwardAllSignals "c0ffee";
      Attach "c0ffee" (mkAttachOptions true false true true "")
        (Some ErrPersistEOF);
      GoHoldHijacked false None (Some cli_out) (Some cli_err);
      Start "c0ffee" None; RecvErrCh (Some ErrPersistEOF);
      Debugf "Error hijack: persistent connection closed";
      RespClose; StopCatch],
     Err ErrPersistEOF).
Proof. vm_compute. reflexivity. Qed.

Lemma CmdRun_attach_errors_witness :
  (CmdRun worldConnectionClosed (inr attachedRun)).2 = Err ErrPersistEOF.
Proof.
  destruct (CmdRun_attach_errors worldConnectionClosed attachedRun _ _
              "c0ffee" (mkAttachOptions true false true true "")
              (Some ErrPersistEOF)
              (pair_eta (CmdRun worldConnectionClosed (inr attachedRun))))
    as [_ Hkept].
  - vm_compute. do 2 apply list_elem_of_further. apply list_elem_of_here.
  - destruct Hkept as (t & i & o' & e & _ & Hstarted); [right; reflexivity|].
    destruct (Hstarted "c0ffee") as [_ Hret].
    + vm_compute. do 4 apply list_elem_of_further. apply list_elem_of_here.
    + apply Hret. reflexivity.
Defined.

(** * Further properties *)

(** ** The classification of daemon errors, with and without the envelope *)

(** X1: the envelope does not change the class of a message: a message and
    the same message behind "Error response from daemon: " get the same
    status, as long as the message does not itself start with the envelope
    (which is stripped once only). *)
Theorem runStartContainerErr_envelope (m : string) :
  strings.HasPrefix m "Error response from daemon: " = false ->
  runStartContainerErr (errorString ("Error response from daemon: " +:+ m))
  = runStartContainerErr (errorString m).
Proof.
  intros Hm. unfold runStartContainerErr. simpl Error.
  rewrite TrimPrefix_app, (TrimPrefix_other m) by exact Hm. reflexivity.
Qed.

Lemma runStartContainerErr_envelope_witness :
  runStartContainerErr
    (errorString ("Error response from daemon: "
                  +:+ "Container command 'ls' could not be invoked."))
  = mkStatusError 126.
Proof.
  rewrite (runStartContainerErr_envelope
             "Container command 'ls' could not be invoked.");
    reflexivity.
Defined.

(** The envelope is stripped once: behind two envelopes, a message of the
    class 127 is of the class 125. *)
Example runStartContainerErr_two_envelopes :
  runStartContainerErr
    (errorString "Error response from daemon: Error response from daemon: Container command 'x' not found or does not exist.")
  = mkStatusError 125.
Proof. reflexivity. Qed.


(** ** The CID file: calls in a row, and the rest of the file system *)

Lemma pwrite_append (content b : list byte) :
  pwrite content (length content) b = content ++ b.
Proof.
  unfold pwrite. rewrite Nat.sub_diag. simpl. rewrite app_nil_r.
  rewrite take_ge by lia. rewrite drop_ge by lia. rewrite app_nil_r. reflexivity.
Qed.

(** The state between two writes: the handle is open at the end of the
    file, whose bytes are [content]. *)
Lemma writeAll_invariant (ids : list string) :
  forall (fs : filesystem) (cid : cidFile) (content : list byte),
    fs !! path cid = Some content ->
    file cid = mkFile (path cid) (length content) false ->
    let '(fs', cid', es) := writeAll fs cid ids in
    fs' !! path cid = Some (content ++ allBytes ids) /\
    path cid' = path cid /\
    file cid' = mkFile (path cid) (length (content ++ allBytes ids)) false /\
    written cid' = match ids with [] => written cid | _ => true end /\
    Forall (fun e => e = None) es /\ length es = length ids /\
    forall q, q <> path cid -> fs' !! q = fs !! q.
Proof.
  induction ids as [|id rest IH]; intros fs cid content Hfs Hfile; simpl.
  - unfold allBytes. simpl. rewrite app_nil_r. repeat split; auto.
  - unfold cidFile_Write, File_Write. rewrite Hfile. simpl. rewrite Hfs.
    rewrite pwrite_append.
    set (fs1 := <[path cid := content ++ list_byte_of_string id]> fs).
    set (cid1 := mkCidFile (path cid)
                   (mkFile (path cid) (length content + length (list_byte_of_string id)) false)
                   true).
    specialize (IH fs1 cid1 (content ++ list_byte_of_string id)).
    destruct (writeAll fs1 cid1 rest) as [[fs2 cid2] es].
    destruct IH as (Hc & Hp & Hf & Hw & Hes & Hlen & Hframe).
    { subst fs1. apply lookup_insert_eq. }
    { subst cid1. simpl. rewrite length_app. reflexivity. }
    unfold allBytes in *. simpl. rewrite app_assoc.
    split; [exact Hc|]. split; [exact Hp|]. split; [exact Hf|].
    split; [destruct rest; exact Hw|].
    split; [constructor; [reflexivity | exact Hes]|].
    split; [simpl; congruence|].
    intros q Hq. rewrite (Hframe q Hq). subst fs1. simpl.
    apply lookup_insert_ne. congruence.
Qed.

(** X2: [Write] is not guarded against a second call: on a CID file as it
    was created, any number of calls whose file writes succeed all return
    nil, leave under the path the bytes of the identifiers one after the
    other, set the flag as soon as there is one call, and leave every other
    path as it was. *)
Theorem cidFile_Write_appends
    (fs : filesystem) (cid : cidFile) (ids : list string) :
  opened fs cid ->
  (writeAll fs cid ids).1.1 !! path cid = Some (allBytes ids) /\
  written (writeAll fs cid ids).1.2 = match ids with [] => false | _ => true end /\
  Forall (fun e => e = None) (writeAll fs cid ids).2 /\
  forall q, q <> path cid -> (writeAll fs cid ids).1.1 !! q = fs !! q.
Proof.
  intros (Hfs & Hfile & Hw).
  pose proof (writeAll_invariant ids fs cid [] Hfs Hfile) as H.
  destruct (writeAll fs cid ids) as [[fs' cid'] es]. simpl in *.
  destruct H as (Hc & _ & _ & Hw' & Hes & _ & Hframe).
  split; [exact Hc|]. split; [rewrite Hw', Hw; destruct ids; reflexivity|].
  split; [exact Hes | exact Hframe].
Qed.

Lemma cidFile_Write_appends_witness :
  (writeAll fs0 cid0 ["4f2a"; "77"]).1.1 !! "/run/cid"
  = Some (list_byte_of_string "4f2a77").
Proof.
  destruct (cidFile_Write_appends fs0 cid0 ["4f2a"; "77"] opened_cid0)
    as (Hc & _). exact Hc.
Defined.

(** X3: [Close] is not to be called twice on a file that was never
    written: the first call removes the path and returns nil (when the
    removal does not fail), the second finds no path to remove and returns
    the error "failed to remove the CID file", the file system being left
    without the path. *)
Theorem cidFile_Close_twice (fs : filesystem) (cid : cidFile) :
  opened fs cid ->
  let first := cidFile_Close None fs cid in
  let second := cidFile_Close None first.1.1 first.1.2 in
  first.2 = None /\
  (exists cause,
     second.2 = Some (errorString ("failed to remove the CID file '" +:+ path cid
                                   +:+ "': " +:+ Error cause +:+ " " +:+ newline))) /\
  second.1.1 = delete (path cid) fs /\
  closed (file second.1.2) = true.
Proof.
  intros (Hfs & Hfile & Hw). unfold cidFile_Close. rewrite Hfile, Hw. simpl.
  rewrite Hfs. simpl. rewrite lookup_delete_eq. simpl.
  split; [reflexivity|].
  split; [|split; reflexivity].
  exists (errorString ("remove " +:+ path cid +:+ ": no such file or directory")).
  reflexivity.
Qed.

Lemma cidFile_Close_twice_witness :
  (cidFile_Close None (cidFile_Close None fs0 cid0).1.1
                      (cidFile_Close None fs0 cid0).1.2).2 <> None.
Proof.
  destruct (cidFile_Close_twice fs0 cid0 opened_cid0) as (_ & [cause ->] & _).
  discriminate.
Defined.

(** X4: [Write] and [Close] touch the file system under one path only:
    every path other than the one of the handle is as before after
    [Write], whether it succeeds or fails, and every path other than the
    one of the CID file is as before after [Close]. *)
Theorem cidFile_other_paths
    (wrFault : option (nat * error)) (rmFault : option error)
    (fs : filesystem) (cid : cidFile) (id q : string) :
  (q <> name (file cid) -> (cidFile_Write wrFault fs cid id).1.1 !! q = fs !! q) /\
  (q <> path cid -> (cidFile_Close rmFault fs cid).1.1 !! q = fs !! q).
Proof.
  split; intros Hq.
  - unfold cidFile_Write, File_Write.
    destruct (closed (file cid)); simpl; [reflexivity|].
    destruct (fs !! name (file cid)) as [content|] eqn:E.
    + destruct wrFault as [[n e]|]; simpl;
        apply lookup_insert_ne; congruence.
    + destruct wrFault as [[n e]|]; reflexivity.
  - unfold cidFile_Close, os_Remove. destruct (File_Close (file cid)) as [f' e].
    simpl. destruct (written cid); simpl; [reflexivity|].
    destruct rmFault as [e'|]; simpl; [reflexivity|].
    destruct (fs !! path cid) eqn:E; simpl; [|reflexivity].
    apply lookup_delete_ne. congruence.
Qed.

(** ** The stdin filter: what reaches the inner writer *)

Lemma delToBs_never_del (c : byte) : delToBs c <> x7f.
Proof.
  unfold delToBs. destruct (Byte.eqb c libcontainerd.del) eqn:E.
  - discriminate.
  - apply Byte.eqb_false in E. exact E.
Qed.

Lemma delToBs_idempotent (c : byte) : delToBs (delToBs c) = delToBs c.
Proof. apply filter.delToBs_other, delToBs_never_del. Qed.

Lemma fmap_delToBs_clean (l : list byte) : x7f ∉ l -> delToBs <$> l = l.
Proof.
  induction l as [|c l IH]; intros Hno; [reflexivity|]. rewrite fmap_cons.
  rewrite filter.delToBs_other, IH; [reflexivity | |].
  - intros Hin. apply Hno. apply list_elem_of_further. exact Hin.
  - intros ->. apply Hno. apply list_elem_of_here.
Qed.

Lemma valid_buffer (h : libcontainerd.heap) (b : libcontainerd.slice)
    (p : positive) :
  libcontainerd.valid h b ->
  libcontainerd.valid (<[p := delToBs <$> libcontainerd.bytes h b]> h)
    (libcontainerd.mkSlice p 0 (libcontainerd.len b)).
Proof.
  intros Hv. exists (delToBs <$> libcontainerd.bytes h b). simpl.
  rewrite lookup_insert_eq. split; [reflexivity|].
  rewrite length_fmap, filter.bytes_length by done. lia.
Qed.

(** X5: no DEL byte gets through the filter: for every input slice that
    lies in its array, the buffer handed to the inner writer holds no 0x7F;
    it has a 0x08 at an index exactly when the input has a 0x7F or a 0x08
    there; and it holds the very bytes of the input when the input has no
    0x7F. *)
Theorem remap_output_has_no_del
    (h : libcontainerd.heap) (b : libcontainerd.slice) :
  libcontainerd.valid h b ->
  exists h1 bc,
    libcontainerd.remap h b = Some (h1, bc) /\
    (x7f ∉ libcontainerd.bytes h1 bc) /\
    (forall i, libcontainerd.bytes h1 bc !! i = Some x08 <->
               libcontainerd.bytes h b !! i = Some x7f \/
               libcontainerd.bytes h b !! i = Some x08) /\
    ((x7f ∉ libcontainerd.bytes h b) ->
     libcontainerd.bytes h1 bc = libcontainerd.bytes h b).
Proof.
  intros Hv. eexists _, _. split; [apply filter.remap_spec, Hv|].
  rewrite filter.bytes_buffer by done. split; [|split].
  - intros Hin. apply list_elem_of_fmap in Hin as (c & Hc & _).
    symmetry in Hc. exact (delToBs_never_del c Hc).
  - intros i. rewrite list_lookup_fmap.
    destruct (libcontainerd.bytes h b !! i) as [c|]; simpl.
    + split.
      * intros [= Hc]. unfold delToBs in Hc.
        destruct (Byte.eqb c libcontainerd.del) eqn:E.
        -- left. apply Byte.byte_dec_bl in E. rewrite E. reflexivity.
        -- right. rewrite Hc. reflexivity.
      * intros [[= ->]|[= ->]]; reflexivity.
    + split; [discriminate | intros [?|?]; discriminate].
  - apply fmap_delToBs_clean.
Qed.

Lemma remap_output_has_no_del_witness :
  exists h1 bc,
    libcontainerd.remap heap0 slice0 = Some (h1, bc) /\
    (x7f ∉ libcontainerd.bytes h1 bc).
Proof.
  destruct (remap_output_has_no_del heap0 slice0 filter.valid_slice0)
    as (h1 & bc & Hr & Hno & _).
  exists h1, bc. split; [exact Hr | exact Hno].
Defined.

(** X6: two filters, one around the other, do what one does: the inner
    writer is called once and gets a buffer with the same bytes as under
    one filter, and what it returns comes back. *)
Theorem delToBsWriter_twice {W} `{libcontainerd.WriteCloser W}
    (w : W) (h : libcontainerd.heap) (b : libcontainerd.slice) :
  libcontainerd.valid h b ->
  exists h1 bc h2 bc2,
    libcontainerd.delToBsWriter_Write (libcontainerd.mkDelToBsWriter w) h b
    = match libcontainerd.Write w h1 bc with
      | Some (h', w', r) => Some (h', libcontainerd.mkDelToBsWriter w', r)
      | None => None
      end /\
    libcontainerd.delToBsWriter_Write
      (libcontainerd.mkDelToBsWriter (libcontainerd.mkDelToBsWriter w)) h b
    = match libcontainerd.Write w h2 bc2 with
      | Some (h', w', r) =>
          Some (h', libcontainerd.mkDelToBsWriter
                      (libcontainerd.mkDelToBsWriter w'), r)
      | None => None
      end /\
    libcontainerd.bytes h2 bc2 = libcontainerd.bytes h1 bc /\
    libcontainerd.len bc2 = libcontainerd.len b.
Proof.
  intros Hv.
  pose proof (filter.remap_spec h b Hv) as Hr1.
  set (p1 := fresh (dom h)) in *.
  set (h1 := <[p1 := delToBs <$> libcontainerd.bytes h b]> h) in *.
  set (bc := libcontainerd.mkSlice p1 0 (libcontainerd.len b)) in *.
  assert (Hv1 : libcontainerd.valid h1 bc) by (apply valid_buffer, Hv).
  pose proof (filter.remap_spec h1 bc Hv1) as Hr2.
  exists h1, bc, (<[fresh (dom h1) := delToBs <$> libcontainerd.bytes h1 bc]> h1),
    (libcontainerd.mkSlice (fresh (dom h1)) 0 (libcontainerd.len bc)).
  split; [|split; [|split]].
  - unfold libcontainerd.delToBsWriter_Write. rewrite Hr1. reflexivity.
  - unfold libcontainerd.delToBsWriter_Write at 1. rewrite Hr1. simpl.
    unfold libcontainerd.delToBsWriter_Write. rewrite Hr2. simpl.
    destruct (libcontainerd.Write w _ _) as [[[h' w'] r]|]; reflexivity.
  - rewrite filter.bytes_buffer by exact Hv1.
    subst h1 bc. rewrite filter.bytes_buffer by exact Hv.
    rewrite <- list_fmap_compose.
    apply list_fmap_ext. intros i c _. apply delToBs_idempotent.
  - reflexivity.
Qed.

Lemma delToBsWriter_twice_witness :
  exists h1 bc h2 bc2,
    libcontainerd.delToBsWriter_Write
      (libcontainerd.mkDelToBsWriter (mkRecorder [])) heap0 slice0
    = match libcontainerd.Write (mkRecorder []) h1 bc with
      | Some (h', w', r) => Some (h', libcontainerd.mkDelToBsWriter w', r)
      | None => None
      end /\
    libcontainerd.bytes h2 bc2 = libcontainerd.bytes h1 bc /\
    libcontainerd.len bc2 = 3%nat.
Proof.
  destruct (delToBsWriter_twice (mkRecorder []) heap0 slice0 filter.valid_slice0)
    as (h1 & bc & h2 & bc2 & Hone & _ & Hsame & Hlen).
  exists h1, bc, h2, bc2. split; [exact Hone|]. split; [exact Hsame | exact Hlen].
Defined.

(** ** [CmdRun]: the whole trace *)

#[local] Transparent preamble detachOrCheck create displayID attachSession
  deferRemove start monitor awaitSession exitStatus.

Lemma create_eq w p c :
  create w p c
  = match createResult w p c with
    | inl err =>
        mkM [createEvent w p c; ReportError (Error err) true] []
            (Return (Status (runStartContainerErr err)))
    | inr id =>
        mkM (createEvent w p c :: forwarding p c id)
            (if sigProxy p c then [[StopCatch]] else [])
            (Go_on (createHostConfig w p, id))
    end.
Proof.
  unfold create, createEvent, createResult, createHostConfig, forwarding, sigProxy.
  unfold_M.
  destruct (createContainer w c _ _ _) as [err|id]; simpl; [reflexivity|].
  destruct (if Tty c then false else flSigProxy (flags p)); reflexivity.
Qed.

Lemma displayID_eq p c hc id :
  displayID p c hc id
  = mkM (displaying c id) []
        (if restartConflict p hc
         then Return (Err ErrConflictRestartPolicyAndAutoRemove)
         else Go_on tt).
Proof.
  unfold displayID, displaying, restartConflict. unfold_M.
  destruct (negb (AttachStdout c) && negb (AttachStderr c)); simpl;
    destruct (flAutoRemove (flags p) && _); reflexivity.
Qed.

Lemma deferRemove_eq w p id :
  deferRemove w p id
  = mkM [] (if flAutoRemove (flags p) then [removal w p id] else []) (Go_on tt).
Proof.
  unfold deferRemove, removal. unfold_M.
  destruct (flAutoRemove (flags p)); reflexivity.
Qed.

Lemma monitor_eq w c id :
  monitor w c id = mkM (monitorEvents w c id) [] (Go_on tt).
Proof.
  unfold monitor, monitorEvents. unfold_M.
  destruct ((AttachStdin c || AttachStdout c || AttachStderr c) && Tty c
            && isTerminalOut w); [|reflexivity].
  simpl. destruct (monitorTtySize w id false); reflexivity.
Qed.

Lemma preamble_printedFirst w p0 :
  Forall printedFirst (events (preamble w (inr p0))).
Proof. unfold preamble. phase_cases; all_events. Qed.

(** The phases that do not ask the monitor or the removal, in a world that
    differs in these two only. *)
Lemma phases_withMonitorAndRemove w mon rem :
  let w' := withMonitorAndRemove w mon rem in
  (forall parsed, preamble w' parsed = preamble w parsed) /\
  (forall p, detachOrCheck w' p = detachOrCheck w p) /\
  (forall p c, create w' p c = create w p c) /\
  (forall p c id, attachSession w' p c id = attachSession w p c id) /\
  (forall c id errCh, start w' c id errCh = start w c id errCh) /\
  (forall p c id, exitStatus w' p c id = exitStatus w p c id).
Proof. repeat split. Qed.

#[local] Opaque preamble detachOrCheck create displayID attachSession
  deferRemove start monitor awaitSession exitStatus.

(** The first half of the body, evaluated. *)
Lemma upToAttach_eq w p0 :
  upToAttach w (inr p0)
  = if String.eqb (Image (config p0)) "" then
      mkM (events (preamble w (inr p0))) [] (Return Nil)
    else
      match outcome (detachOrCheck w (normalized p0)) with
      | Return r1 => mkM (events (preamble w (inr p0))) [] (Return r1)
      | Go_on c =>
          match createResult w (normalized p0) c with
          | inl err =>
              mkM (events (preamble w (inr p0))
                   ++ [createEvent w (normalized p0) c;
                       ReportError (Error err) true])
                  [] (Return (Status (runStartContainerErr err)))
          | inr id =>
              mkM (events (preamble w (inr p0))
                   ++ createEvent w (normalized p0) c
                      :: forwarding (normalized p0) c id ++ displaying c id)
                  (if sigProxy (normalized p0) c then [[StopCatch]] else [])
                  (if restartConflict (normalized p0)
                        (createHostConfig w (normalized p0))
                   then Return (Err ErrConflictRestartPolicyAndAutoRemove)
                   else Go_on (normalized p0, c,
                               createHostConfig w (normalized p0), id))
          end
      end.
Proof.
  destruct (preamble_early w (inr p0)) as [_ Hpd].
  destruct (detachOrCheck_silent w (normalized p0)) as [Hde Hdd].
  destruct (String.eqb (Image (config p0)) "") eqn:Himg.
  - apply String.eqb_eq in Himg.
    destruct (preamble_no_image w p0 Himg) as [Hr _].
    unfold upToAttach. apply M_eq; bind_norm; rewrite Hr; simpl;
      rewrite ?app_nil_r; auto.
  - apply String.eqb_neq in Himg.
    destruct (preamble_image w p0 Himg) as [Hgo _].
    unfold upToAttach.
    apply M_eq; bind_norm; rewrite Hgo; bind_norm; rewrite ?Hde, ?Hdd, ?Hpd;
      destruct (outcome (detachOrCheck w (normalized p0))) as [c|r1];
      simpl; rewrite ?app_nil_r; try reflexivity;
      bind_norm; rewrite create_eq;
      destruct (createResult w (normalized p0) c) as [err|id]; simpl;
      rewrite ?app_nil_r; try reflexivity;
      bind_norm; rewrite displayID_eq; simpl;
      destruct (restartConflict _ _); simpl; rewrite ?app_nil_r;
      try reflexivity; rewrite <- ?app_assoc; reflexivity.
Qed.

Lemma afterSession_eq w p c id :
  afterSession w p c id
  = if negb (AttachStdout c) && negb (AttachStderr c)
    then mkM [RecvWaitDisplayID] [] (Return Nil)
    else mkM (events (exitStatus w p c id)) []
             (Return (statusOf (outcome (exitStatus w p c id)))).
Proof.
  unfold afterSession.
  destruct (negb (AttachStdout c) && negb (AttachStderr c)); [reflexivity|].
  destruct (exitStatus_calls w p c id) as [_ Hd].
  apply M_eq; bind_norm; rewrite ?Hd;
    destruct (outcome (exitStatus w p c id)) as [st|r]; simpl;
    rewrite ?app_nil_r; try reflexivity;
    unfold statusResult; destruct (negb (st =? 0)); simpl;
    rewrite ?app_nil_r; reflexivity.
Qed.

(** What the primary task does with the attach task after the start. *)
Lemma afterStart_eq w p c id errCh :
  afterStart w p c id errCh
  = match errCh with
    | Some (Some err) =>
        mkM (monitorEvents w c id
             ++ [RecvErrCh (Some err); Debugf ("Error hijack: " +:+ Error err)])
            [] (Return (Err err))
    | Some None =>
        mkM (monitorEvents w c id ++ RecvErrCh None
             :: events (afterSession w p c id))
            [] (outcome (afterSession w p c id))
    | None =>
        mkM (monitorEvents w c id ++ events (afterSession w p c id))
            [] (outcome (afterSession w p c id))
    end.
Proof.
  unfold afterStart. pose proof (afterSession_deferred w p c id) as Hd.
  rewrite monitor_eq, awaitSession_eq.
  destruct errCh as [[err|]|]; apply M_eq; bind_norm; rewrite ?Hd;
    rewrite ?app_nil_r; reflexivity.
Qed.

Lemma startPhase_eq w p c id errCh :
  events (startPhase w p c id errCh)
  = Start id (ContainerStart w id)
    :: match ContainerStart w id with
       | Some err =>
           (if attached c
            then Cancel :: match errCh with
                           | Some v => [RecvErrCh v]
                           | None => []
                           end
            else [])
           ++ [ReportError (Error err) false]
       | None => events (afterStart w p c id errCh)
       end /\
  concat (deferred (startPhase w p c id errCh)) = removal w p id /\
  result_of (startPhase w p c id errCh)
  = match ContainerStart w id with
    | Some err => Status (runStartContainerErr err)
    | None => result_of (afterStart w p c id errCh)
    end.
Proof.
  assert (Hrem : concat (deferred (startPhase w p c id errCh)) = removal w p id).
  { rewrite startPhase_deferred, deferRemove_eq. simpl. unfold removal.
    destruct (flAutoRemove (flags p)); simpl; rewrite ?app_nil_r; reflexivity. }
  unfold result_of. destruct (ContainerStart w id) as [err|] eqn:Hs.
  - rewrite (startPhase_failed _ _ _ _ _ _ Hs) in *. simpl.
    split; [reflexivity|]. split; [exact Hrem | reflexivity].
  - destruct (startPhase_started w p c id errCh Hs) as (-> & _ & ->).
    split; [reflexivity|]. split; [exact Hrem | reflexivity].
Qed.

(** The second half of the body: the attach call ends the run, or the
    start phase follows, after the attach task was started if anything is
    attached. *)
Lemma fromAttach_shape w p c hc id :
  (attached c = true /\
   exists err,
     ContainerAttach w id (attachOptions w p c) = Some err /\
     err <> ErrPersistEOF /\
     fromAttach w (p, c, hc, id)
     = mkM [Attach id (attachOptions w p c) (Some err)] [] (Return (Err err))) \/
  (exists sess closing errCh,
     ((attached c = false /\ sess = [] /\ closing = [] /\ errCh = None) \/
      (attached c = true /\
       (ContainerAttach w id (attachOptions w p c) = None \/
        ContainerAttach w id (attachOptions w p c) = Some ErrPersistEOF) /\
       sess = [Attach id (attachOptions w p c)
                 (ContainerAttach w id (attachOptions w p c)); holdEvent c] /\
       closing = [RespClose] /\
       errCh = Some (delivered w c
                       (ContainerAttach w id (attachOptions w p c))))) /\
     events (fromAttach w (p, c, hc, id))
     = sess ++ events (startPhase w p c id errCh) /\
     concat (deferred (fromAttach w (p, c, hc, id)))
     = removal w p id ++ closing /\
     result_of (fromAttach w (p, c, hc, id))
     = result_of (startPhase w p c id errCh)).
Proof.
  rewrite fromAttach_eq, attachSession_eq. unfold result_of.
  assert (Hopened :
    ContainerAttach w id (attachOptions w p c) = None \/
    ContainerAttach w id (attachOptions w p c) = Some ErrPersistEOF ->
    attached c = true ->
    exists sess closing errCh,
      ((attached c = false /\ sess = [] /\ closing = [] /\ errCh = None) \/
       (attached c = true /\
        (ContainerAttach w id (attachOptions w p c) = None \/
         ContainerAttach w id (attachOptions w p c) = Some ErrPersistEOF) /\
        sess = [Attach id (attachOptions w p c)
                  (ContainerAttach w id (attachOptions w p c)); holdEvent c] /\
        closing = [RespClose] /\
        errCh = Some (delivered w c
                        (ContainerAttach w id (attachOptions w p c))))) /\
      events (sessionOpened w p c id ≫= startPhase w p c id)
      = sess ++ events (startPhase w p c id errCh) /\
      concat (deferred (sessionOpened w p c id ≫= startPhase w p c id))
      = removal w p id ++ closing /\
      match outcome (sessionOpened w p c id ≫= startPhase w p c id) with
      | Go_on r | Return r => r
      end
      = match outcome (startPhase w p c id errCh) with
        | Go_on r | Return r => r
        end).
  { intros Hres Hatt. eexists _, _, _. split; [right; repeat split; eauto|].
    unfold sessionOpened. bind_norm.
    rewrite concat_app, (proj1 (proj2 (startPhase_eq _ _ _ _ _))).
    repeat split. }
  destruct (attached c) eqn:Hatt.
  - destruct (ContainerAttach w id (attachOptions w p c)) as [err|] eqn:Ha.
    + destruct (bool_decide (err = ErrPersistEOF)) eqn:Hb.
      * apply bool_decide_eq_true in Hb. subst err. right.
        apply Hopened; auto.
      * apply bool_decide_eq_false in Hb. left. split; [reflexivity|].
        exists err. repeat split; auto.
    + right. apply Hopened; auto.
  - right. exists [], [], None. split; [left; auto|]. bind_norm.
    rewrite app_nil_r, (proj1 (proj2 (startPhase_eq _ _ _ _ _))), app_nil_r.
    repeat split.
Qed.

(** Every run on a parsed command line has one of five shapes: it ends
    before the create call; the create call fails; the restart policy
    conflicts with [--rm]; the attach call fails; or the start phase is
    reached. *)
Lemma CmdRun_shape w p0 tr r :
  CmdRun w (inr p0) = (tr, r) ->
  (tr = events (preamble w (inr p0)) /\
   ((Image (config p0) = "" /\ r = Nil) \/
    (Image (config p0) <> "" /\
     outcome (detachOrCheck w (normalized p0)) = Return r))) \/
  exists c,
    Image (config p0) <> "" /\
    outcome (detachOrCheck w (normalized p0)) = Go_on c /\
    ((exists err,
        createResult w (normalized p0) c = inl err /\
        tr = events (preamble w (inr p0))
             ++ [createEvent w (normalized p0) c; ReportError (Error err) true] /\
        r = Status (runStartContainerErr err)) \/
     exists id,
       createResult w (normalized p0) c = inr id /\
       ((restartConflict (normalized p0) (createHostConfig w (normalized p0)) = true /\
         tr = events (preamble w (inr p0))
              ++ createEvent w (normalized p0) c
                 :: forwarding (normalized p0) c id ++ displaying c id
                 ++ stopping (normalized p0) c /\
         r = Err ErrConflictRestartPolicyAndAutoRemove) \/
        (restartConflict (normalized p0) (createHostConfig w (normalized p0)) = false /\
         ((attached c = true /\
           exists err,
             ContainerAttach w id (attachOptions w (normalized p0) c) = Some err /\
             err <> ErrPersistEOF /\
             tr = events (preamble w (inr p0))
                  ++ createEvent w (normalized p0) c
                     :: forwarding (normalized p0) c id ++ displaying c id
                     ++ [Attach id (attachOptions w (normalized p0) c) (Some err)]
                     ++ stopping (normalized p0) c /\
             r = Err err) \/
          exists sess closing errCh,
            sessionCase w (normalized p0) c id sess closing errCh /\
            tr = events (preamble w (inr p0))
                 ++ createEvent w (normalized p0) c
                    :: forwarding (normalized p0) c id ++ displaying c id
                    ++ sess ++ events (startPhase w (normalized p0) c id errCh)
                    ++ removal w (normalized p0) id ++ closing
                    ++ stopping (normalized p0) c /\
            r = result_of (startPhase w (normalized p0) c id errCh))))).
Proof.
  intros Hrun. rewrite CmdRun_inr, upToAttach_eq in Hrun.
  destruct (String.eqb (Image (config p0)) "") eqn:Himg.
  { apply String.eqb_eq in Himg. simpl in Hrun. rewrite app_nil_r in Hrun.
    injection Hrun as <- <-. left. split; [reflexivity|]. left. auto. }
  apply String.eqb_neq in Himg.
  destruct (outcome (detachOrCheck w (normalized p0))) as [c|r1] eqn:Hdet.
  2: { simpl in Hrun. rewrite app_nil_r in Hrun. injection Hrun as <- <-.
       left. split; [reflexivity|]. right. auto. }
  right. exists c. split; [exact Himg|]. split; [reflexivity|].
  destruct (createResult w (normalized p0) c) as [err|id] eqn:Hcre.
  { simpl in Hrun. rewrite app_nil_r in Hrun. injection Hrun as <- <-.
    left. exists err. auto. }
  right. exists id. split; [reflexivity|].
  assert (Hstop : concat (if sigProxy (normalized p0) c then [[StopCatch]] else [])
                  = stopping (normalized p0) c).
  { unfold stopping. destruct (sigProxy (normalized p0) c); reflexivity. }
  destruct (restartConflict _ _) eqn:Hconf.
  { simpl in Hrun. rewrite Hstop in Hrun. injection Hrun as <- <-.
    left. split; [reflexivity|]. split; [|reflexivity].
    rewrite <- !app_assoc. simpl. rewrite <- !app_assoc. reflexivity. }
  right. split; [reflexivity|]. simpl in Hrun. rewrite Hstop in Hrun.
  destruct (fromAttach_shape w (normalized p0) c
              (createHostConfig w (normalized p0)) id)
    as [(Hatt & err & Ha & Hne & HF)|(sess & closing & errCh & Hcase & He & Hd & Hr)].
  - rewrite HF in Hrun. unfold result_of in Hrun. simpl in Hrun.
    injection Hrun as <- <-. left. split; [exact Hatt|]. exists err.
    split; [exact Ha|]. split; [exact Hne|]. split; [|reflexivity].
    rewrite <- !app_assoc. simpl. rewrite <- !app_assoc. reflexivity.
  - rewrite He, Hd, Hr in Hrun. injection Hrun as <- <-. right.
    exists sess, closing, errCh. split; [exact Hcase|]. split; [|reflexivity].
    rewrite <- !app_assoc. simpl. rewrite <- !app_assoc. reflexivity.
Qed.

#[local] Opaque startPhase afterStart afterSession.

(** *** Membership in the pieces of a trace *)

Lemma elem_of_preamble e w p0 :
  e ∈ events (preamble w (inr p0)) -> printedFirst e.
Proof. exact (proj1 (Forall_forall _ _) (preamble_printedFirst w p0) e). Qed.

Lemma elem_of_forwarding e p c id :
  e ∈ forwarding p c id -> e = ForwardAllSignals id /\ sigProxy p c = true.
Proof.
  unfold forwarding. destruct (sigProxy p c); intros H; elem_cases H. auto.
Qed.

Lemma elem_of_stopping e p c :
  e ∈ stopping p c -> e = StopCatch /\ sigProxy p c = true.
Proof.
  unfold stopping. destruct (sigProxy p c); intros H; elem_cases H. auto.
Qed.

Lemma elem_of_displaying e c id :
  e ∈ displaying c id ->
  e = GoDisplayID id /\ negb (AttachStdout c) && negb (AttachStderr c) = true.
Proof.
  unfold displaying. destruct (negb (AttachStdout c) && negb (AttachStderr c));
    intros H; elem_cases H. auto.
Qed.

Lemma elem_of_removal e w p id :
  e ∈ removal w p id ->
  flAutoRemove (flags p) = true /\
  (e = RemoveContainer id true false true (removeContainer w id true false true) \/
   exists err, removeContainer w id true false true = Some err /\
               e = Fprintf_err (Error err +:+ newline)).
Proof.
  unfold removal. destruct (flAutoRemove (flags p)); intros H;
    [|elem_cases H]. split; [reflexivity|].
  apply elem_of_cons in H as [H|H]; [left; exact H|].
  destruct (removeContainer w id true false true) as [err|]; elem_cases H.
  right. exists err. auto.
Qed.

Lemma elem_of_monitorEvents e w c id :
  e ∈ monitorEvents w c id ->
  attached c && Tty c && isTerminalOut w = true /\
  (e = MonitorTtySize id (monitorTtySize w id false) \/
   exists err, monitorTtySize w id false = Some err /\
               e = Fprintf_err ("Error monitoring TTY size: " +:+ Error err
                               +:+ newline)).
Proof.
  unfold monitorEvents, attached.
  destruct ((AttachStdin c || AttachStdout c || AttachStderr c) && Tty c
            && isTerminalOut w); intros H; [|elem_cases H].
  split; [reflexivity|].
  apply elem_of_cons in H as [H|H]; [left; exact H|].
  destruct (monitorTtySize w id false) as [err|]; elem_cases H.
  right. exists err. auto.
Qed.

Lemma elem_of_exitStatus e w p c id :
  e ∈ events (exitStatus w p c id) ->
  e = Wait id (ContainerWait w id) \/ e = GetExitCode id (getExitCode w id).
Proof.
  rewrite (proj1 (exitStatus_eq w p c id)).
  destruct (flAutoRemove (flags p)); [|destruct (Tty c)];
    [destruct (ContainerWait w id) as [st [err|]]| |];
    intros H; elem_cases H; auto.
Qed.

Ltac trace_cases H :=
  repeat first
    [ apply elem_of_app in H as [H|H]
    | apply elem_of_cons in H as [H|H]
    | (apply elem_of_nil in H; contradiction)
    | apply elem_of_preamble in H
    | apply elem_of_forwarding in H as [H ?]
    | apply elem_of_displaying in H as [H ?]
    | apply elem_of_stopping in H as [H ?]
    | apply elem_of_removal in H as [? [H|(? & ? & H)]]
    | apply elem_of_monitorEvents in H as [? [H|(? & ? & H)]]
    | apply elem_of_exitStatus in H as [H|H] ].

(** The cases of a run, with the start phase opened. *)
Ltac started_cases Htr Hr Hcase Hatt Hattach :=
  let Hstart := fresh "Hstart" in
  let Hdel := fresh "Hdel" in
  let Hdisp := fresh "Hdisp" in
  let serr := fresh "serr" in
  let herr := fresh "herr" in
  match type of Hcase with
  | sessionCase ?w ?p ?c ?id _ _ ?errCh =>
      let HSe := fresh "HSe" in
      let HSr := fresh "HSr" in
      destruct (startPhase_eq w p c id errCh) as (HSe & _ & HSr);
      rewrite HSe in Htr; rewrite HSr in Hr; clear HSe HSr;
      destruct Hcase as [(Hatt & -> & -> & ->)|(Hatt & Hattach & -> & -> & ->)];
      (destruct (ContainerStart w id) as [serr|] eqn:Hstart;
       [ rewrite Hatt in Htr; simpl in Htr
       | rewrite afterStart_eq in Htr, Hr;
         try (destruct (delivered w c _) as [herr|] eqn:Hdel);
         unfold result_of in Hr; simpl in Htr, Hr;
         try (rewrite afterSession_eq in Htr, Hr;
              destruct (negb (AttachStdout c) && negb (AttachStderr c)) eqn:Hdisp;
              simpl in Htr, Hr) ])
  end.

Ltac run_cases Hrun :=
  let Htr := fresh "Htr" in
  let Hr := fresh "Hr" in
  let Himg := fresh "Himg" in
  let Hdet := fresh "Hdet" in
  let Hcre := fresh "Hcre" in
  let Hconf := fresh "Hconf" in
  let Hatt := fresh "Hatt" in
  let Hattach := fresh "Hattach" in
  let Hne := fresh "Hne" in
  let Hcase := fresh "Hcase" in
  let c := fresh "c" in
  let id := fresh "id" in
  let err := fresh "err" in
  let sess := fresh "sess" in
  let closing := fresh "closing" in
  let errCh := fresh "errCh" in
  apply CmdRun_shape in Hrun;
  destruct Hrun as [(Htr & [(Himg & Hr)|(Himg & Hdet)])
                   |(c & Himg & Hdet &
                      [(err & Hcre & Htr & Hr)
                      |(id & Hcre &
                         [(Hconf & Htr & Hr)
                         |(Hconf &
                            [(Hatt & err & Hattach & Hne & Htr & Hr)
                            |(sess & closing & errCh & Hcase & Htr & Hr)])])])];
  [ | | | | | started_cases Htr Hr Hcase Hatt Hattach ].


Lemma splitsAt_here {A} (P Q : A -> Prop) x post :
  Forall Q post -> splitsAt P Q x (x :: post).
Proof. intros HQ. exists [], post. repeat split; auto. Qed.

Lemma splitsAt_cons {A} (P Q : A -> Prop) x y l :
  P y -> splitsAt P Q x l -> splitsAt P Q x (y :: l).
Proof.
  intros Hy (body & post & -> & HP & HQ). exists (y :: body), post.
  repeat split; auto.
Qed.

Lemma splitsAt_app {A} (P Q : A -> Prop) x a l :
  Forall P a -> splitsAt P Q x l -> splitsAt P Q x (a ++ l).
Proof.
  intros Ha (body & post & -> & HP & HQ). exists (a ++ body), post.
  rewrite app_assoc. repeat split; auto. apply Forall_app; auto.
Qed.

Lemma endsWith_here {A} (P : A -> Prop) tail : endsWith P tail tail.
Proof. exists []. split; [reflexivity | constructor]. Qed.

Lemma endsWith_cons {A} (P : A -> Prop) tail y l :
  P y -> endsWith P tail l -> endsWith P tail (y :: l).
Proof.
  intros Hy (body & -> & HP). exists (y :: body). split; [reflexivity|].
  constructor; auto.
Qed.

Lemma endsWith_app {A} (P : A -> Prop) tail a l :
  Forall P a -> endsWith P tail l -> endsWith P tail (a ++ l).
Proof.
  intros Ha (body & -> & HP). exists (a ++ body). rewrite app_assoc.
  split; [reflexivity|]. apply Forall_app; auto.
Qed.

(** What the create call got, from the parsed command line. *)
Lemma createEvent_inv w p0 c cfg hc f n res :
  outcome (detachOrCheck w (normalized p0)) = Go_on c ->
  Create cfg hc f n res = createEvent w (normalized p0) c ->
  cfg = c /\
  c = (if flDetach (flags p0) then cleared (config (normalized p0))
       else config (normalized p0)) /\
  hc = createHostConfig w p0 /\ f = ContainerIDFile (hostConfig p0) /\
  n = flName (flags p0) /\ res = createResult w (normalized p0) c.
Proof.
  intros Hdet Hev. unfold createEvent in Hev. injection Hev as -> -> -> -> ->.
  apply detachOrCheck_go_on in Hdet as [(Hd & ->)|(Hd & _ & ->)];
    rewrite normalized_flags in Hd; rewrite Hd; repeat split;
    unfold createHostConfig; simpl; destruct (String.eqb (GOOS w) "windows");
    reflexivity.
Qed.

(** X7: when the create call fails, the error is reported and the run ends
    with its classification; nothing but warnings came before, and nothing
    follows: no forwarder, no attach, no start, no removal. *)
Theorem CmdRun_create_failure
    (w : World) (p0 : Parsed) (tr : list event) (r : result)
    (cfg : Config) (hc : HostConfig) (f n : string) (cause : error) :
  CmdRun w (inr p0) = (tr, r) ->
  Create cfg hc f n (inl cause) ∈ tr ->
  exists ws,
    tr = ws ++ [Create cfg hc f n (inl cause); ReportError (Error cause) true] /\
    Forall warning ws /\
    r = Status (runStartContainerErr cause).
Proof.
  intros Hrun Hin. run_cases Hrun; subst tr; trace_cases Hin;
    try discriminate Hin; try (exfalso; exact Hin);
    pose proof (createEvent_inv _ _ _ _ _ _ _ _ Hdet Hin) as Hinv;
    destruct Hinv as (_ & _ & _ & _ & _ & Hres); rewrite Hcre in Hres;
    try discriminate Hres.
  injection Hres as ->. rewrite <- Hin. exists (events (preamble w (inr p0))).
  split; [reflexivity|]. split; [|exact Hr].
  exact (proj2 (preamble_image w p0 Himg)).
Qed.

Lemma CmdRun_create_failure_witness :
  exists ws,
    (CmdRun worldCreateFails (inr attachedRun)).1
    = ws ++ [Create (config (normalized attachedRun)) hostDefault "" "" (inl noSuchImage);
             ReportError (Error noSuchImage) true] /\
    Forall warning ws /\
    (CmdRun worldCreateFails (inr attachedRun)).2
    = Status (runStartContainerErr noSuchImage).
Proof.
  apply (CmdRun_create_failure worldCreateFails attachedRun).
  - apply pair_eta.
  - vm_compute. apply list_elem_of_here.
Defined.

(** X8: the create call gets the configuration of the command line with
    [ArgsEscaped] reset and, when detached, nothing attached; the host
    configuration of the command line, with the console size measured on
    Windows only; the CID file and the name of the command line.  It is
    reached only with an image, and after the terminal check or the
    conflict checks of the detached mode passed. *)
Theorem CmdRun_create_arguments
    (w : World) (p0 : Parsed) (tr : list event) (r : result)
    (cfg : Config) (hc : HostConfig) (f n : string) (res : error + string) :
  CmdRun w (inr p0) = (tr, r) ->
  Create cfg hc f n res ∈ tr ->
  Image (config p0) <> "" /\
  cfg = (if flDetach (flags p0) then cleared (config (normalized p0))
         else config (normalized p0)) /\
  ArgsEscaped cfg = false /\
  OomKillDisable hc = OomKillDisable (hostConfig p0) /\
  Memory hc = Memory (hostConfig p0) /\
  DNS hc = DNS (hostConfig p0) /\
  Restart hc = Restart (hostConfig p0) /\
  ContainerIDFile hc = ContainerIDFile (hostConfig p0) /\
  ConsoleSize hc = (if String.eqb (GOOS w) "windows" then getTtySize w
                    else ConsoleSize (hostConfig p0)) /\
  f = ContainerIDFile (hostConfig p0) /\
  n = flName (flags p0) /\
  res = createContainer w cfg hc f n /\
  (if flDetach (flags p0)
   then attachListGiven (flags p0) = false /\ flAutoRemove (flags p0) = false
   else CheckTtyInput w (AttachStdin (config p0)) (Tty (config p0)) = None).
Proof.
  intros Hrun Hin.
  assert (Hgoal : forall c,
    Image (config p0) <> "" ->
    outcome (detachOrCheck w (normalized p0)) = Go_on c ->
    Create cfg hc f n res = createEvent w (normalized p0) c ->
    Image (config p0) <> "" /\
    cfg = (if flDetach (flags p0) then cleared (config (normalized p0))
           else config (normalized p0)) /\
    ArgsEscaped cfg = false /\
    OomKillDisable hc = OomKillDisable (hostConfig p0) /\
    Memory hc = Memory (hostConfig p0) /\
    DNS hc = DNS (hostConfig p0) /\
    Restart hc = Restart (hostConfig p0) /\
    ContainerIDFile hc = ContainerIDFile (hostConfig p0) /\
    ConsoleSize hc = (if String.eqb (GOOS w) "windows" then getTtySize w
                      else ConsoleSize (hostConfig p0)) /\
    f = ContainerIDFile (hostConfig p0) /\
    n = flName (flags p0) /\
    res = createContainer w cfg hc f n /\
    (if flDetach (flags p0)
     then attachListGiven (flags p0) = false /\ flAutoRemove (flags p0) = false
     else CheckTtyInput w (AttachStdin (config p0)) (Tty (config p0)) = None)).
  { intros c Himg Hdet Hev.
    destruct (createEvent_inv _ _ _ _ _ _ _ _ Hdet Hev)
      as (-> & Hc & -> & -> & -> & ->).
    split; [exact Himg|]. split; [exact Hc|].
    split; [rewrite Hc; destruct (flDetach (flags p0)); reflexivity|].
    unfold createHostConfig, createResult, createHostConfig. simpl.
    destruct (String.eqb (GOOS w) "windows"); simpl;
      (repeat (split; [reflexivity|]));
      (destruct (flDetach (flags p0)) eqn:Hd;
       [ rewrite (detachOrCheck_detached w (normalized p0) Hd) in Hdet;
         rewrite !normalized_flags in Hdet;
         destruct (attachListGiven (flags p0)); [discriminate Hdet|];
         destruct (flAutoRemove (flags p0)); [discriminate Hdet|]; auto
       | rewrite (detachOrCheck_attached w (normalized p0) Hd) in Hdet;
         simpl in Hdet;
         destruct (CheckTtyInput w _ _); [discriminate Hdet | reflexivity] ]). }
  run_cases Hrun; subst tr; trace_cases Hin;
    try discriminate Hin; try (exfalso; exact Hin);
    exact (Hgoal _ Himg Hdet Hin).
Qed.

Lemma CmdRun_create_arguments_witness :
  Create (cleared (config (normalized detachedRun))) hostDefault "" ""
         (inr "c0ffee") ∈ (CmdRun world0 (inr detachedRun)).1 /\
  ArgsEscaped (cleared (config (normalized detachedRun))) = false /\
  attachListGiven (flags detachedRun) = false /\
  flAutoRemove (flags detachedRun) = false.
Proof.
  assert (Hin : Create (cleared (config (normalized detachedRun))) hostDefault
                       "" "" (inr "c0ffee")
                ∈ (CmdRun world0 (inr detachedRun)).1).
  { vm_compute. apply list_elem_of_here. }
  split; [exact Hin|].
  pose proof (CmdRun_create_arguments world0 detachedRun _ _ _ _ _ _ _
                (pair_eta _) Hin) as H.
  split; [exact (proj1 (proj2 (proj2 H)))|].
  exact (proj2 (proj2 (proj2 (proj2 (proj2 (proj2 (proj2 (proj2 (proj2
        (proj2 (proj2 (proj2 H)))))))))))).
Defined.

Ltac body_events :=
  apply Forall_forall;
  let e := fresh "e" in
  let He := fresh "He" in
  intros e He; trace_cases He; subst;
  try exact I; try reflexivity;
  try (destruct e; try contradiction; exact I).

(** X9: one container per run.  A create call that succeeded is the only
    one of the run; only warnings were printed before it, and every later
    call that names a container names the one it created. *)
Theorem CmdRun_one_container
    (w : World) (p0 : Parsed) (tr : list event) (r : result)
    (cfg : Config) (hc : HostConfig) (f n i : string) :
  CmdRun w (inr p0) = (tr, r) ->
  Create cfg hc f n (inr i) ∈ tr ->
  exists ws post,
    tr = ws ++ Create cfg hc f n (inr i) :: post /\
    Forall warning ws /\
    Forall (afterCreate i) post.
Proof.
  intros Hrun Hin.
  change (splitsAt warning (afterCreate i) (Create cfg hc f n (inr i)) tr).
  run_cases Hrun; subst tr; trace_cases Hin;
    try discriminate Hin; try (exfalso; exact Hin);
    pose proof (createEvent_inv _ _ _ _ _ _ _ _ Hdet Hin) as Hinv;
    destruct Hinv as (_ & _ & _ & _ & _ & Hres); rewrite Hcre in Hres;
    try discriminate Hres; injection Hres as ->;
    (apply splitsAt_app; [exact (proj2 (preamble_image w p0 Himg))|]);
    rewrite <- Hin; apply splitsAt_here; body_events.
Qed.

Lemma CmdRun_one_container_witness :
  exists ws post,
    (CmdRun world0 (inr attachedRun)).1
    = ws ++ Create (config (normalized attachedRun)) hostDefault "" ""
               (inr "c0ffee") :: post /\
    Forall warning ws /\
    Forall (afterCreate "c0ffee") post.
Proof.
  apply (CmdRun_one_container world0 attachedRun _ _ _ _ _ _ _ (pair_eta _)).
  vm_compute. apply list_elem_of_here.
Defined.

Lemma forwarding_intro p c id :
  sigProxy p c = true -> ForwardAllSignals id ∈ forwarding p c id.
Proof. intros H. unfold forwarding. rewrite H. apply list_elem_of_here. Qed.

Lemma stopping_intro p c : sigProxy p c = true -> StopCatch ∈ stopping p c.
Proof. intros H. unfold stopping. rewrite H. apply list_elem_of_here. Qed.

Lemma displaying_intro c id :
  negb (AttachStdout c) && negb (AttachStderr c) = true ->
  GoDisplayID id ∈ displaying c id.
Proof. intros H. unfold displaying. rewrite H. apply list_elem_of_here. Qed.

Lemma removal_intro w p id :
  flAutoRemove (flags p) = true ->
  RemoveContainer id true false true (removeContainer w id true false true)
  ∈ removal w p id.
Proof. intros H. unfold removal. rewrite H. apply list_elem_of_here. Qed.

Lemma monitorEvents_intro w c id :
  attached c && Tty c && isTerminalOut w = true ->
  MonitorTtySize id (monitorTtySize w id false) ∈ monitorEvents w c id.
Proof.
  unfold attached, monitorEvents. intros ->. apply list_elem_of_here.
Qed.

Ltac find_in :=
  first
    [ apply list_elem_of_here
    | (apply forwarding_intro; assumption)
    | (apply stopping_intro; assumption)
    | (apply displaying_intro; assumption)
    | (apply removal_intro; assumption)
    | (apply monitorEvents_intro; assumption)
    | (apply list_elem_of_further; find_in)
    | (apply elem_of_app; left; find_in)
    | (apply elem_of_app; right; find_in) ].

Lemma endsWith_nil {A} (P : A -> Prop) l : Forall P l -> endsWith P [] l.
Proof. intros H. exists l. rewrite app_nil_r. auto. Qed.

Ltac ends_with :=
  repeat first
    [ apply endsWith_here
    | (apply endsWith_cons; [exact I|])
    | (apply endsWith_app; [body_events|]) ].

Lemma removal_cases w p id :
  removal w p id = [] \/
  exists i,
    removal w p id
    = RemoveContainer i true false true (removeContainer w i true false true)
      :: match removeContainer w i true false true with
         | Some err => [Fprintf_err (Error err +:+ newline)]
         | None => []
         end.
Proof.
  unfold removal. destruct (flAutoRemove (flags p)); [right|left; reflexivity].
  exists id. reflexivity.
Qed.

Lemma stopping_cases p c : stopping p c = [] \/ stopping p c = [StopCatch].
Proof. unfold stopping. destruct (sigProxy p c); auto. Qed.

(** X10: the deferred calls run when the body is over, last registered
    first: the removal of the container (with its error printed, if any),
    then the close of the attach connection, then the stop of the signal
    forwarder.  Each runs at most once, and after a parse error none. *)
Theorem CmdRun_deferred_order (w : World) (parsed : error + Parsed) :
  exists body rem cls stp,
    (CmdRun w parsed).1 = body ++ rem ++ cls ++ stp /\
    Forall bodyEvent body /\
    (rem = [] \/
     exists i,
       rem = RemoveContainer i true false true
               (removeContainer w i true false true)
             :: match removeContainer w i true false true with
                | Some err => [Fprintf_err (Error err +:+ newline)]
                | None => []
                end) /\
    (cls = [] \/ cls = [RespClose]) /\
    (stp = [] \/ stp = [StopCatch]).
Proof.
  destruct parsed as [err|p0].
  { exists [ReportError (Error err) true], [], [], [].
    repeat split; auto. repeat constructor. }
  destruct (CmdRun w (inr p0)) as [tr r] eqn:Hrun. simpl.
  assert (Hend : forall rem cls stp,
            endsWith bodyEvent (rem ++ cls ++ stp) tr ->
            (rem = [] \/
             exists i,
               rem = RemoveContainer i true false true
                       (removeContainer w i true false true)
                     :: match removeContainer w i true false true with
                        | Some err => [Fprintf_err (Error err +:+ newline)]
                        | None => []
                        end) ->
            (cls = [] \/ cls = [RespClose]) ->
            (stp = [] \/ stp = [StopCatch]) ->
            exists body rem cls stp,
              tr = body ++ rem ++ cls ++ stp /\
              Forall bodyEvent body /\
              (rem = [] \/
               exists i,
                 rem = RemoveContainer i true false true
                         (removeContainer w i true false true)
                       :: match removeContainer w i true false true with
                          | Some err => [Fprintf_err (Error err +:+ newline)]
                          | None => []
                          end) /\
              (cls = [] \/ cls = [RespClose]) /\
              (stp = [] \/ stp = [StopCatch])).
  { intros rem cls stp (body & Heq & HF) Hrem Hcls Hstp.
    exists body, rem, cls, stp. auto. }
  run_cases Hrun; subst tr.
  1-3: apply (Hend [] [] []); auto; apply endsWith_nil; body_events.
  1-2: apply (Hend [] [] (stopping (normalized p0) c));
       auto using stopping_cases; ends_with.
  1-3: apply (Hend (removal w (normalized p0) id) [] (stopping (normalized p0) c));
       auto using removal_cases, stopping_cases; ends_with.
  all: apply (Hend (removal w (normalized p0) id) [RespClose]
                (stopping (normalized p0) c));
       auto using removal_cases, stopping_cases; ends_with.
Qed.

Lemma before_here {A} (x y : A) l : y ∈ l -> before x y (x :: l).
Proof. intros H. exists [x], l. repeat split; auto. apply list_elem_of_here. Qed.

Lemma before_cons {A} (x y z : A) l : before x y l -> before x y (z :: l).
Proof.
  intros (l1 & l2 & -> & H1 & H2). exists (z :: l1), l2. repeat split; auto.
  apply list_elem_of_further, H1.
Qed.

Lemma before_app_r {A} (x y : A) a l : before x y l -> before x y (a ++ l).
Proof.
  intros (l1 & l2 & -> & H1 & H2). exists (a ++ l1), l2.
  rewrite app_assoc. repeat split; auto. apply elem_of_app. auto.
Qed.

Lemma before_app_l {A} (x y : A) a l : x ∈ a -> y ∈ l -> before x y (a ++ l).
Proof. intros H1 H2. exists a, l. auto. Qed.

Ltac find_before :=
  first
    [ (apply before_here; find_in)
    | (apply before_app_l; [find_in | find_in])
    | (apply before_cons; find_before)
    | (apply before_app_r; find_before) ].

Lemma sigProxy_eq w p0 c :
  outcome (detachOrCheck w (normalized p0)) = Go_on c ->
  sigProxy (normalized p0) c = negb (Tty (config p0)) && flSigProxy (flags p0).
Proof.
  intros Hdet. unfold sigProxy.
  apply detachOrCheck_go_on in Hdet as [(_ & ->)|(_ & _ & ->)]; simpl;
    destruct (Tty (config p0)); reflexivity.
Qed.



(** X12: the signal forwarder is started for the created container, and
    only when the command line keeps [--sig-proxy] and asks for no
    terminal. *)
Theorem CmdRun_signal_proxy
    (w : World) (p0 : Parsed) (tr : list event) (r : result) (i : string) :
  CmdRun w (inr p0) = (tr, r) ->
  (ForwardAllSignals i ∈ tr <->
   (exists cfg hc f n, Create cfg hc f n (inr i) ∈ tr) /\
   Tty (config p0) = false /\ flSigProxy (flags p0) = true).
Proof.
  intros Hrun.
  run_cases Hrun; subst tr; unfold createEvent; try rewrite Hcre;
    try pose proof (sigProxy_eq w p0 _ Hdet) as Hsig.
  all: split; [intros H|intros ((cfg & hc & f & n & H) & Htty & Hsp)].
  all: trace_cases H; try discriminate H; try (exfalso; exact H).
  all: try (injection H as ->;
            match goal with
            | Hs : sigProxy _ _ = true |- _ =>
                rewrite Hsig in Hs; apply andb_prop in Hs as [Hs1 Hs2];
                apply negb_true_iff in Hs1
            end;
            split; [do 4 eexists; find_in | split; assumption]).
  all: injection H as _ _ _ _ <-.
  all: rewrite Htty, Hsp in Hsig; find_in.
Qed.

Lemma CmdRun_signal_proxy_witness :
  ForwardAllSignals "c0ffee" ∈ (CmdRun world0 (inr attachedRun)).1 <->
  (exists cfg hc f n,
     Create cfg hc f n (inr "c0ffee") ∈ (CmdRun world0 (inr attachedRun)).1) /\
  Tty (config attachedRun) = false /\ flSigProxy (flags attachedRun) = true.
Proof.
  apply (CmdRun_signal_proxy world0 attachedRun _ _ "c0ffee" (pair_eta _)).
Defined.

(** X13: the primary task receives only from tasks it has started: from
    [waitDisplayID] only after the task that prints the identifier, from
    [errCh] only after the attach task.  Neither channel is nil when it is
    read. *)
Theorem CmdRun_receives_from_started_tasks
    (w : World) (p0 : Parsed) (tr : list event) (r : result) :
  CmdRun w (inr p0) = (tr, r) ->
  (RecvWaitDisplayID ∈ tr ->
   exists i, before (GoDisplayID i) RecvWaitDisplayID tr) /\
  (forall v, RecvErrCh v ∈ tr ->
   exists t i o e, before (GoHoldHijacked t i o e) (RecvErrCh v) tr).
Proof.
  intros Hrun. run_cases Hrun; subst tr; (split; [intros H|intros v H]).
  all: trace_cases H; try discriminate H; try (exfalso; exact H).
  all: try (exists id; find_before).
  all: do 4 eexists; rewrite H; find_before.
Qed.

Lemma CmdRun_receives_from_started_tasks_witness :
  (RecvWaitDisplayID ∈ (CmdRun world0 (inr detachedRun)).1 ->
   exists i, before (GoDisplayID i) RecvWaitDisplayID
               (CmdRun world0 (inr detachedRun)).1) /\
  (forall v, RecvErrCh v ∈ (CmdRun world0 (inr detachedRun)).1 ->
   exists t i o e, before (GoHoldHijacked t i o e) (RecvErrCh v)
                     (CmdRun world0 (inr detachedRun)).1).
Proof.
  apply (CmdRun_receives_from_started_tasks world0 detachedRun _ _ (pair_eta _)).
Defined.

Lemma attached_inv w p0 c :
  outcome (detachOrCheck w (normalized p0)) = Go_on c ->
  attached c = true ->
  flDetach (flags p0) = false /\ c = config (normalized p0).
Proof.
  intros Hdet Hatt.
  apply detachOrCheck_go_on in Hdet as [(Hd & ->)|(_ & _ & ->)];
    [auto | discriminate Hatt].
Qed.

(** X14: the attach call is made only for a run that is not detached and
    attaches a stream; it asks for a stream of exactly the attached ones,
    with the detach keys of the command line or else of the configuration
    file, for the container created before; and the attach task, if
    started, copies on the client's streams of the same selection, the
    error stream going to the client's output on a terminal. *)
Theorem CmdRun_attach_call
    (w : World) (p0 : Parsed) (tr : list event) (r : result)
    (i : string) (o : ContainerAttachOptions) (res : option error) :
  CmdRun w (inr p0) = (tr, r) ->
  Attach i o res ∈ tr ->
  flDetach (flags p0) = false /\
  attached (config p0) = true /\
  o = mkAttachOptions true (AttachStdin (config p0)) (AttachStdout (config p0))
        (AttachStderr (config p0))
        (if String.eqb (flDetachKeys (flags p0)) ""
         then configFile_DetachKeys w else flDetachKeys (flags p0)) /\
  res = ContainerAttach w i o /\
  (exists cfg hc f n, before (Create cfg hc f n (inr i)) (Attach i o res) tr) /\
  (forall t sin sout serr,
     GoHoldHijacked t sin sout serr ∈ tr ->
     before (Attach i o res) (GoHoldHijacked t sin sout serr) tr /\
     t = Tty (config p0) /\
     sin = (if AttachStdin (config p0) then Some cli_in else None) /\
     sout = (if AttachStdout (config p0) then Some cli_out else None) /\
     serr = (if AttachStderr (config p0)
             then (if Tty (config p0) then Some cli_out else Some cli_err)
             else None)).
Proof.
  intros Hrun H.
  run_cases Hrun; subst tr; trace_cases H;
    try discriminate H; try (exfalso; exact H).
  all: destruct (attached_inv w p0 _ Hdet Hatt) as (Hd & ->).
  all: injection H as -> -> ->.
  all: (split; [exact Hd|]); (split; [exact Hatt|]).
  all: split;
    [ unfold attachOptions; simpl;
      destruct (String.eqb (flDetachKeys (flags p0)) ""); reflexivity |].
  all: split; [first [reflexivity | symmetry; exact Hattach]|].
  all: split;
    [ do 4 eexists; unfold createEvent; rewrite Hcre; find_before |].
  all: intros t sin sout serr' H2; trace_cases H2;
    try discriminate H2; try (exfalso; exact H2).
  all: split; [rewrite H2; find_before|].
  all: unfold holdEvent in H2; injection H2 as -> -> -> ->; auto.
Qed.

Lemma CmdRun_attach_call_witness :
  Attach "c0ffee" (mkAttachOptions true false true true "") None
    ∈ (CmdRun world0 (inr attachedRun)).1 /\
  flDetach (flags attachedRun) = false /\
  attached (config attachedRun) = true.
Proof.
  assert (Hin : Attach "c0ffee" (mkAttachOptions true false true true "") None
                ∈ (CmdRun world0 (inr attachedRun)).1).
  { vm_compute. repeat constructor. }
  split; [exact Hin|].
  pose proof (CmdRun_attach_call world0 attachedRun _ _ _ _ _ (pair_eta _) Hin)
    as H.
  split; [exact (proj1 H) | exact (proj1 (proj2 H))].
Defined.

(** X15: the terminal size monitor is set up only on a terminal, for an
    attached run with [-t], and after the start call succeeded; when it
    fails the error is printed, after the call. *)
Theorem CmdRun_monitor
    (w : World) (p0 : Parsed) (tr : list event) (r : result)
    (i : string) (res : option error) :
  CmdRun w (inr p0) = (tr, r) ->
  MonitorTtySize i res ∈ tr ->
  flDetach (flags p0) = false /\
  attached (config p0) = true /\
  Tty (config p0) = true /\
  isTerminalOut w = true /\
  res = monitorTtySize w i false /\
  before (Start i None) (MonitorTtySize i res) tr /\
  (forall err, res = Some err ->
     before (MonitorTtySize i res)
       (Fprintf_err ("Error monitoring TTY size: " +:+ Error err +:+ newline))
       tr).
Proof.
  intros Hrun H.
  run_cases Hrun; subst tr; trace_cases H;
    try discriminate H; try (exfalso; exact H).
  all: match goal with
       | Hc : attached _ && Tty _ && isTerminalOut _ = true |- _ =>
           pose proof Hc as Hmon;
           rewrite Hatt in Hc; try discriminate Hc;
           apply andb_prop in Hc as [Hc Hterm];
           apply andb_prop in Hc as [_ Htty]
       end.
  all: destruct (attached_inv w p0 _ Hdet Hatt) as (Hd & ->).
  all: injection H as -> ->.
  all: repeat (split; [first [assumption | reflexivity | find_before]|]).
  all: intros err' Hres; unfold monitorEvents;
    change (AttachStdin (config (normalized p0))
            || AttachStdout (config (normalized p0))
            || AttachStderr (config (normalized p0)))
      with (attached (config (normalized p0)));
    rewrite Hatt, Htty, Hterm, Hres; simpl; find_before.
Qed.

Lemma CmdRun_monitor_witness :
  MonitorTtySize "c0ffee" (Some resizeFailed)
    ∈ (CmdRun worldResizeFails (inr interactiveRun)).1 /\
  before (MonitorTtySize "c0ffee" (Some resizeFailed))
    (Fprintf_err ("Error monitoring TTY size: " +:+ Error resizeFailed
                  +:+ newline))
    (CmdRun worldResizeFails (inr interactiveRun)).1.
Proof.
  assert (Hin : MonitorTtySize "c0ffee" (Some resizeFailed)
                ∈ (CmdRun worldResizeFails (inr interactiveRun)).1).
  { vm_compute. repeat constructor. }
  split; [exact Hin|].
  pose proof (CmdRun_monitor worldResizeFails interactiveRun _ _ _ _
                (pair_eta _) Hin) as H.
  exact (proj2 (proj2 (proj2 (proj2 (proj2 (proj2 H))))) _ eq_refl).
Defined.

#[local] Transparent detachOrCheck.


#[local] Opaque detachOrCheck.




Lemma outcome_withMonitorAndRemove w mon rem parsed :
  outcome (CmdRun_body (withMonitorAndRemove w mon rem) parsed)
  = outcome (CmdRun_body w parsed).
Proof.
  destruct (phases_withMonitorAndRemove w mon rem)
    as (H1 & H2 & H3 & H4 & H5 & H6).
  unfold CmdRun_body.
  repeat (rewrite ?outcome_bind, ?H1, ?H2, ?H3, ?H4, ?H5, ?H6,
            ?(proj2 (proj2 (monitor_quiet _ _ _))),
            ?(proj2 (proj2 (deferRemove_cleanup _ _ _)));
          simpl;
          try match goal with
              | |- context [match outcome ?m with _ => _ end] =>
                  destruct (outcome m); split_pairs
              end);
    try reflexivity.
  all: destruct (negb (AttachStdout _) && negb (AttachStderr _));
    repeat (rewrite ?outcome_bind, ?H6; simpl); reflexivity.
Qed.

(** X17: neither the terminal size monitor nor the removal of the
    container can change what [CmdRun] returns: their errors are printed
    and dropped. *)
Theorem CmdRun_result_ignores_monitor_and_removal
    (w : World) (mon : string -> bool -> option error)
    (rem : string -> bool -> bool -> bool -> option error)
    (parsed : error + Parsed) :
  (CmdRun (withMonitorAndRemove w mon rem) parsed).2 = (CmdRun w parsed).2.
Proof.
  unfold CmdRun, run. rewrite outcome_withMonitorAndRemove.
  destruct (outcome (CmdRun_body w parsed)) as [r|r]; destruct r; reflexivity.
Qed.

(** X18: an attached run whose terminal check fails returns the error of
    the check; it has printed warnings at most and made no call to the
    daemon. *)
Theorem CmdRun_tty_check (w : World) (p0 : Parsed) (err : error) :
  Image (config p0) <> "" ->
  flDetach (flags p0) = false ->
  CheckTtyInput w (AttachStdin (config p0)) (Tty (config p0)) = Some err ->
  (CmdRun w (inr p0)).2 = Err err /\
  Forall warning (CmdRun w (inr p0)).1.
Proof.
  intros Himg0 Hd Hcheck.
  pose proof (detachOrCheck_attached w (normalized p0) Hd) as Hdet0.
  simpl in Hdet0. rewrite Hcheck in Hdet0.
  destruct (CmdRun w (inr p0)) as [tr r] eqn:Hrun. simpl.
  run_cases Hrun; try contradiction;
    try (rewrite Hdet0 in Hdet; discriminate Hdet).
  rewrite Hdet0 in Hdet. injection Hdet as <-. split; [reflexivity|].
  subst tr. exact (proj2 (preamble_image w p0 Himg)).
Qed.

Lemma CmdRun_tty_check_witness :
  (CmdRun worldNoTerminal (inr interactiveRun)).2 = Err notATty /\
  Forall warning (CmdRun worldNoTerminal (inr interactiveRun)).1.
Proof.
  apply (CmdRun_tty_check worldNoTerminal interactiveRun notATty).
  - discriminate.
  - reflexivity.
  - reflexivity.
Defined.

Lemma restartConflict_eq w p0 :
  restartConflict (normalized p0) (createHostConfig w (normalized p0))
  = flAutoRemove (flags p0)
    && (IsAlways (Restart (hostConfig p0))
        || IsOnFailure (Restart (hostConfig p0))).
Proof.
  unfold restartConflict, createHostConfig. simpl.
  destruct (String.eqb (GOOS w) "windows"); reflexivity.
Qed.

(** X19: [--rm] with a restart policy "always" or "on-failure" is refused
    only after the container was created: the run returns the conflict
    error, and the container it created is neither attached to, nor
    started, nor removed. *)
Theorem CmdRun_restart_conflict
    (w : World) (p0 : Parsed) (tr : list event) (r : result)
    (cfg : Config) (hc : HostConfig) (f n i : string) :
  CmdRun w (inr p0) = (tr, r) ->
  flAutoRemove (flags p0) = true ->
  IsAlways (Restart (hostConfig p0)) || IsOnFailure (Restart (hostConfig p0))
  = true ->
  Create cfg hc f n (inr i) ∈ tr ->
  r = Err ErrConflictRestartPolicyAndAutoRemove /\
  (forall j o res, Attach j o res ∉ tr) /\
  (forall j sres, Start j sres ∉ tr) /\
  (forall j fo v l res, RemoveContainer j fo v l res ∉ tr).
Proof.
  intros Hrun Hrm Hpol H.
  run_cases Hrun; subst tr; trace_cases H;
    try discriminate H; try (exfalso; exact H);
    pose proof (createEvent_inv _ _ _ _ _ _ _ _ Hdet H) as Hinv;
    destruct Hinv as (_ & _ & _ & _ & _ & Hres); rewrite Hcre in Hres;
    try discriminate Hres;
    rewrite restartConflict_eq, Hrm, Hpol in Hconf; try discriminate Hconf.
  split; [exact Hr|].
  repeat split; intros; intros Hx; trace_cases Hx;
    try discriminate Hx; exact Hx.
Qed.

Lemma CmdRun_restart_conflict_witness :
  (CmdRun world0 (inr restartAlwaysRm)).2
  = Err ErrConflictRestartPolicyAndAutoRemove /\
  (forall j o res, Attach j o res ∉ (CmdRun world0 (inr restartAlwaysRm)).1) /\
  (forall j sres, Start j sres ∉ (CmdRun world0 (inr restartAlwaysRm)).1) /\
  (forall j fo v l res,
     RemoveContainer j fo v l res ∉ (CmdRun world0 (inr restartAlwaysRm)).1).
Proof.
  apply (CmdRun_restart_conflict world0 restartAlwaysRm _ _
           (config (normalized restartAlwaysRm)) hostRestartAlways "" ""
           "c0ffee" (pair_eta _)).
  - reflexivity.
  - reflexivity.
  - vm_compute. apply list_elem_of_here.
Defined.

(** X20: without an image the usage is printed and nil is returned,
    whatever else the command line asks for: no flag is checked and no call
    is made. *)
Theorem CmdRun_no_image (w : World) (p0 : Parsed) :
  Image (config p0) = "" ->
  exists ws,
    CmdRun w (inr p0) = (ws ++ [Usage], Nil) /\ Forall warning ws.
Proof.
  intros Himg0.
  destruct (preamble_no_image w p0 Himg0) as (_ & ws & Hws & Hev).
  exists ws. split; [|exact Hws].
  destruct (CmdRun w (inr p0)) as [tr r] eqn:Hrun.
  run_cases Hrun; try contradiction. subst. rewrite Hev. reflexivity.
Qed.

Lemma CmdRun_no_image_witness :
  exists ws,
    CmdRun world0 (inr noImageDetachRm) = (ws ++ [Usage], Nil) /\
    Forall warning ws.
Proof. apply (CmdRun_no_image world0 noImageDetachRm). reflexivity. Defined.
